(** * db2graphql: the DB2Graphql facade (src/db2g.js)

    A shallow embedding of the facade class of db2graphql and of the
    JavaScript it relies on: strings as sequences of UTF-16 code units,
    values with their truthiness, exceptions and promises as completions,
    the mutable facade object as explicit state. *)

From Stdlib Require Import List Bool NArith ZArith String Ascii Lia.
Import ListNotations.

Set Implicit Arguments.
Local Set Warnings "-register-all".

(** ** JavaScript strings *)

Module JSString.

(** A JavaScript string is a sequence of UTF-16 code units. *)
Definition t := list N.

Definition of_string (s : string) : t :=
  map N_of_ascii (list_ascii_of_string s).

Definition eqb (a b : t) : bool :=
  if list_eq_dec N.eq_dec a b then true else false.

Definition isEmpty (s : t) : bool :=
  match s with [] => true | _ :: _ => false end.

(** WhiteSpace and LineTerminator code points, as [String.prototype.trim]
    strips them: TAB, LF, VT, FF, CR, SP, NBSP, the Unicode space
    separators, LS, PS and the byte order mark. *)
Definition isWhiteSpace (c : N) : bool :=
  ((9 <=? c) && (c <=? 13) || (c =? 32) || (c =? 160) || (c =? 5760)
   || (8192 <=? c) && (c <=? 8202) || (c =? 8232) || (c =? 8233)
   || (c =? 8239) || (c =? 8287) || (c =? 12288) || (c =? 65279))%N.

Fixpoint trimStart (s : t) : t :=
  match s with
  | [] => []
  | c :: r => if isWhiteSpace c then trimStart r else s
  end.

Definition trimEnd (s : t) : t := rev (trimStart (rev s)).

(** [String.prototype.trim] *)
Definition trim (s : t) : t := trimEnd (trimStart s).

(** [String.prototype.split] with a one-unit separator: the empty string
    splits into one empty piece. *)
Fixpoint split (sep : N) (s : t) : list t :=
  match s with
  | [] => [[]]
  | c :: r =>
      if (c =? sep)%N then [] :: split sep r
      else match split sep r with
           | piece :: pieces => (c :: piece) :: pieces
           | [] => [[c]]
           end
  end.

Definition dot : N := 46.

End JSString.

Definition jsstring : Type := JSString.t.
Definition js : string -> jsstring := JSString.of_string.

(** ** JavaScript values *)

Inductive Value : Type :=
| VUndefined
| VNull
| VBool (b : bool)
| VNumber (z : Z)
| VNaN
| VString (s : jsstring)
| VArray (items : list Value)
| VObject (props : list (jsstring * Value))
| VFunction (fn : Closure)

(** The functions the facade creates itself are kept apart from the
    callbacks a caller hands in. *)
with Closure : Type :=
| UserFunction (id : nat)
| ApiName (name : Value)        (* () => name *)
| BuilderGetSchema
| AddSchemaColumn
| DropSchemaColumn
| AddSchemaTable
| DropSchemaTable.

(** ToBoolean *)
Definition truthy (v : Value) : bool :=
  match v with
  | VUndefined | VNull | VNaN => false
  | VBool b => b
  | VNumber z => negb (z =? 0)%Z
  | VString s => negb (JSString.isEmpty s)
  | VArray _ | VObject _ | VFunction _ => true
  end.

(** [a || b] *)
Definition orElse (a b : Value) : Value := if truthy a then a else b.

(** A parameter default [p = d] applies when the argument is [undefined]. *)
Definition defaultTo (d v : Value) : Value :=
  match v with VUndefined => d | _ => v end.

Definition str (s : string) : Value := VString (js s).

(** The empty string *)
Definition emptyString : Value := VString [].

Fixpoint lookupProp (k : jsstring) (props : list (jsstring * Value)) : Value :=
  match props with
  | [] => VUndefined
  | (k', v) :: rest => if JSString.eqb k k' then v else lookupProp k rest
  end.

(** Property read on a value that is known not to be [null] or
    [undefined]; only plain objects carry the properties read here. *)
Definition getProp (o : Value) (k : string) : Value :=
  match o with
  | VObject props => lookupProp (js k) props
  | _ => VUndefined
  end.

(** ** Exceptions, promises and state *)

Record JSError := mkError { errName : string; errMessage : string }.

Definition Error (msg : string) : JSError := mkError "Error" msg.
Definition TypeError (msg : string) : JSError := mkError "TypeError" msg.

Inductive Completion (A : Type) : Type :=
| Normal (a : A)
| Throw (e : JSError).
Arguments Normal {A} a.
Arguments Throw {A} e.

(** What an [async] function hands back: a promise, settled by the time
    the (sequential) model returns it. *)
Inductive Promise (A : Type) : Type :=
| Fulfilled (a : A)
| Rejected (e : JSError).
Arguments Fulfilled {A} a.
Arguments Rejected {A} e.

(** Computations over a mutable state [S] that may throw. The state at the
    point of the throw is kept: JavaScript does not roll back. *)
Definition M (S A : Type) : Type := S -> Completion A * S.

Definition ret {S A} (a : A) : M S A := fun s => (Normal a, s).

Definition throw {S A} (e : JSError) : M S A := fun s => (Throw e, s).

Definition bind {S A B} (m : M S A) (k : A -> M S B) : M S B :=
  fun s =>
    match m s with
    | (Normal a, s') => k a s'
    | (Throw e, s') => (Throw e, s')
    end.

Definition get {S} : M S S := fun s => (Normal s, s).

Definition modify {S} (f : S -> S) : M S unit := fun s => (Normal tt, f s).

(** [try { body } catch (err) { handler }] *)
Definition tryCatch {S A} (body : M S A) (handler : JSError -> M S A) : M S A :=
  fun s =>
    match body s with
    | (Normal a, s') => (Normal a, s')
    | (Throw e, s') => handler e s'
    end.

(** An [async] function never throws to its caller: whatever its body
    throws rejects the promise it returns. *)
Definition async {S A} (body : M S A) : M S (Promise A) :=
  fun s =>
    match body s with
    | (Normal a, s') => (Normal (Fulfilled a), s')
    | (Throw e, s') => (Normal (Rejected e), s')
    end.

(** [await p] *)
Definition await {S A} (p : M S (Promise A)) : M S A :=
  bind p (fun r => match r with
                   | Fulfilled a => ret a
                   | Rejected e => throw e
                   end).

(** Running a computation on a part of the state. *)
Definition zoom {S T A} (proj : S -> T) (inj : T -> S -> S) (m : M T A) : M S A :=
  fun s => let (r, t') := m (proj s) in (r, inj t' s).

Declare Scope js_scope.
Delimit Scope js_scope with js.
Notation "x <- m ;; k" := (bind m (fun x => k))
  (at level 100, m at next level, right associativity) : js_scope.
Notation "m ;;; k" := (bind m (fun _ => k))
  (at level 100, right associativity) : js_scope.
Open Scope js_scope.

(** ** What the facade works with *)

(** The adapters the facade knows: [PostgreSQL] under the key [pg] and
    [Mysql] under the key [mysql]. *)
Inductive DriverKind : Type := PostgreSQL | Mysql.

(** The part of a Knex client configuration that [connect] reads:
    [config.client], [config.connection] and [config.exclude]. *)
Record KnexConfig : Type := mkKnexConfig {
  client : jsstring;
  cfg_connection : Value;
  exclude : Value }.

(** A Knex instance, reduced to [connection().client.config]. *)
Record Knex : Type := mkKnex { config : KnexConfig }.

(** What [this.dbDriver] can hold once set: an adapter built around
    [this.connection], or that connection object itself. *)
Inductive DbDriver : Type :=
| Adapter (kind : DriverKind)
| TheConnection.

(** Calls on the table builder that a schema-builder resolver makes inside
    the callback it hands to Knex. *)
Inductive ColumnChain : Type :=
| ChainDefaultTo (v : Value)
| ChainPrimary.

Inductive TableCall : Type :=
| CallColumn (method name : Value) (chain : ColumnChain)
| CallUnique (name : Value)
| CallIndex (name : Value)
| CallForeign (name references : Value)
| CallDropColumn (name : Value)
| CallIncrements (name : Value).

(** [db.schema.table], [db.schema.createTable], [db.schema.dropTable] *)
Inductive SchemaRequest : Type :=
| SchemaTable (tablename : Value) (calls : list TableCall)
| SchemaCreateTable (tablename : Value) (calls : list TableCall)
| SchemaDropTable (tablename : Value).

(** What reached the database, oldest first. *)
Inductive Event : Type :=
| Introspected (kind : DriverKind) (namespace excluded : Value)
| SchemaRequested (rq : SchemaRequest).

Record BeforeHook : Type := mkBeforeHook {
  validator : Value;
  rejected : Value }.

(** The public fields of the compiler and of the resolver that the facade
    writes, next to the state their own modules keep. The resolver comes
    with its before-hook object, whose two slots [onBefore] assigns. *)
Record Compiler (CS : Type) : Type := mkCompiler {
  c_dbSchema : Value;
  c_dbDriver : option DbDriver;
  c_state : CS }.

Record Resolver (RS : Type) : Type := mkResolver {
  beforeHook : BeforeHook;
  r_dbDriver : option DbDriver;
  r_state : RS }.

(** The modules [db2g.js] requires and the database behind Knex. Their
    sources are not part of what is verified here: every result below holds
    for whatever they do, as long as a method of the compiler or of the
    resolver changes its own object and nothing else. The database answers
    as a function of the request and of what reached it before. *)
Class Required : Type := {
  CompilerState : Type;
  ResolverState : Type;
  (* ../src/graphql/compiler *)
  Compiler_new : Compiler CompilerState;
  Compiler_addType : Value -> Value -> Value -> Value -> M (Compiler CompilerState) unit;
  Compiler_addInput : Value -> Value -> Value -> M (Compiler CompilerState) unit;
  Compiler_buildSchema : M (Compiler CompilerState) unit;
  Compiler_getSDL : Value -> Value -> M (Compiler CompilerState) Value;
  (* ../src/graphql/resolver *)
  Resolver_new : Resolver ResolverState;
  Resolver_add : Value -> Value -> Value -> M (Resolver ResolverState) unit;
  Resolver_getResolvers : Value -> M (Resolver ResolverState) Value;
  (* ../src/adapters/postgres, ../src/adapters/mysql *)
  Adapter_getSchema : DriverKind -> Knex -> Value -> Value -> list Event -> Completion Value;
  Adapter_getAvailableTypes : DriverKind -> list jsstring;
  (* knex *)
  Knex_schema : Knex -> SchemaRequest -> list Event -> Completion unit;
  JSON_stringify : Value -> Value }.

(** ** The facade *)

(** [this.drivers[drivername]]: [drivers] is the object literal
    [{ pg: PostgreSQL, mysql: Mysql }], so a key it does not own is looked up
    on [Object.prototype]. *)
Inductive DriverSlot : Type :=
| OwnAdapter (kind : DriverKind)
| Inherited (key : jsstring)
| Missing.

Definition objectPrototypeKeys : list jsstring :=
  map js ["constructor"; "__defineGetter__"; "__defineSetter__";
          "hasOwnProperty"; "__lookupGetter__"; "__lookupSetter__";
          "isPrototypeOf"; "propertyIsEnumerable"; "toString"; "valueOf";
          "__proto__"; "toLocaleString"]%string.

Definition lookupDriver (drivername : jsstring) : DriverSlot :=
  if JSString.eqb drivername (js "pg") then OwnAdapter PostgreSQL
  else if JSString.eqb drivername (js "mysql") then OwnAdapter Mysql
  else if existsb (JSString.eqb drivername) objectPrototypeKeys
       then Inherited drivername
       else Missing.

(** [Array.prototype.pop] on an array of strings *)
Definition pop (l : list jsstring) : Value * list jsstring :=
  match rev l with
  | [] => (VUndefined, [])
  | x :: r => (VString x, rev r)
  end.

(** [path.trim().split('.').filter(i => !!i)] *)
Definition segmentsOf (path : jsstring) : list jsstring :=
  filter (fun i => truthy (VString i))
         (JSString.split JSString.dot (JSString.trim path)).

(** How many pieces of a split are not empty. *)
Definition nonEmptyPieces (pieces : list jsstring) : nat :=
  List.length (filter (fun i => truthy (VString i)) pieces).

(** Segments written one after the other with a dot in between. *)
Fixpoint joinDots (segments : list jsstring) : jsstring :=
  match segments with
  | [] => []
  | [s] => s
  | s :: rest => s ++ JSString.dot :: joinDots rest
  end.

(** [types.indexOf(v) === -1] for an array [types] of strings *)
Definition notListed (v : Value) (types : list jsstring) : bool :=
  match v with
  | VString s => negb (existsb (JSString.eqb s) types)
  | _ => true
  end.

(** What a fluent method returns: the facade it was called on. *)
Inductive Self : Type := This.

Section Facade.

Context `{Required}.

Record DB2Graphql : Type := mkDB2Graphql {
  connection : option Knex;
  dbSchema : Value;
  gqlSchema : Value;
  compiler : Compiler CompilerState;
  resolver : Resolver ResolverState;
  dbDriver : option DbDriver }.

(** The facade object together with what has reached the database. *)
Record World : Type := mkWorld {
  facade : DB2Graphql;
  trace : list Event }.

Definition JS (A : Type) : Type := M World A.

(** *** Field updates *)

Definition set_connection (v : option Knex) (f : DB2Graphql) : DB2Graphql :=
  mkDB2Graphql v (dbSchema f) (gqlSchema f) (compiler f) (resolver f) (dbDriver f).
Definition set_dbSchema (v : Value) (f : DB2Graphql) : DB2Graphql :=
  mkDB2Graphql (connection f) v (gqlSchema f) (compiler f) (resolver f) (dbDriver f).
Definition set_gqlSchema (v : Value) (f : DB2Graphql) : DB2Graphql :=
  mkDB2Graphql (connection f) (dbSchema f) v (compiler f) (resolver f) (dbDriver f).
Definition set_compiler (v : Compiler CompilerState) (f : DB2Graphql) : DB2Graphql :=
  mkDB2Graphql (connection f) (dbSchema f) (gqlSchema f) v (resolver f) (dbDriver f).
Definition set_resolver (v : Resolver ResolverState) (f : DB2Graphql) : DB2Graphql :=
  mkDB2Graphql (connection f) (dbSchema f) (gqlSchema f) (compiler f) v (dbDriver f).
Definition set_dbDriver (v : option DbDriver) (f : DB2Graphql) : DB2Graphql :=
  mkDB2Graphql (connection f) (dbSchema f) (gqlSchema f) (compiler f) (resolver f) v.

Definition set_facade (f : DB2Graphql) (w : World) : World := mkWorld f (trace w).

Definition set_c_dbSchema (v : Value) (c : Compiler CompilerState) :=
  mkCompiler v (c_dbDriver c) (c_state c).
Definition set_c_dbDriver (v : option DbDriver) (c : Compiler CompilerState) :=
  mkCompiler (c_dbSchema c) v (c_state c).
Definition set_r_dbDriver (v : option DbDriver) (r : Resolver ResolverState) :=
  mkResolver (beforeHook r) v (r_state r).
Definition set_beforeHook (h : BeforeHook) (r : Resolver ResolverState) :=
  mkResolver h (r_dbDriver r) (r_state r).
Definition set_validator (v : Value) (h : BeforeHook) := mkBeforeHook v (rejected h).
Definition set_rejected (v : Value) (h : BeforeHook) := mkBeforeHook (validator h) v.

Definition this : JS DB2Graphql := fun w => (Normal (facade w), w).

Definition assign (upd : DB2Graphql -> DB2Graphql) : JS unit :=
  modify (fun w => set_facade (upd (facade w)) w).

(** A method call on [this.compiler], on [this.resolver] *)
Definition onCompiler {A} (m : M (Compiler CompilerState) A) : JS A :=
  zoom (fun w => compiler (facade w))
       (fun c w => set_facade (set_compiler c (facade w)) w) m.

Definition onResolver {A} (m : M (Resolver ResolverState) A) : JS A :=
  zoom (fun w => resolver (facade w))
       (fun r w => set_facade (set_resolver r (facade w)) w) m.

(** A request to the database: its answer depends on what reached the
    database before, and the request is recorded. *)
Definition request {A} (ev : Event) (answer : list Event -> Completion A) : JS A :=
  fun w => (answer (trace w), mkWorld (facade w) (trace w ++ [ev])).

(** *** [add(type, field, returns, resolver, params = {})] *)
Definition add (type field returns resolver params : Value) : JS Self :=
  let params := defaultTo (VObject []) params in
  onCompiler (Compiler_addType type field returns params) ;;;
  onResolver (Resolver_add type field resolver) ;;;
  ret This.

(** *** [constructor(name = '', db = null)] *)
Definition construct (name : Value) (db : option Knex) (history : list Event)
  : Completion unit * World :=
  let name := defaultTo emptyString name in
  let fresh := mkDB2Graphql db VNull VNull Compiler_new Resolver_new None in
  (if truthy name
   then add (str "Query") (str "getAPIName") (str "String")
            (VFunction (ApiName name)) VUndefined ;;; ret tt
   else ret tt) (mkWorld fresh history).

(** *** [addField(path, returns, resolver, params = {})] *)
Definition addField (path : jsstring) (returns resolver params : Value) : JS Self :=
  let params := defaultTo (VObject []) params in
  let segments := segmentsOf path in
  if (List.length segments <? 2)%nat
  then throw (Error "addField path must be in format Type.field")
  else
    let (field, segments) := pop segments in
    let (type, segments) := pop segments in
    add type field returns resolver params ;;;
    ret This.

(** *** [addInput(path, subType)] *)
Definition addInput (path : jsstring) (subType : Value) : JS Self :=
  let segments := segmentsOf path in
  if (List.length segments <? 2)%nat
  then throw (Error "addInput path must be in format Input.field")
  else
    let (field, segments) := pop segments in
    let (type, segments) := pop segments in
    onCompiler (Compiler_addInput type field subType) ;;;
    ret This.

(** *** [onBefore(validator, rejected)] *)
Definition onBefore (validator rejected : Value) : JS unit :=
  assign (fun f =>
    set_resolver (set_beforeHook (set_validator validator (beforeHook (resolver f)))
                                 (resolver f)) f) ;;;
  if truthy rejected
  then assign (fun f =>
    set_resolver (set_beforeHook (set_rejected rejected (beforeHook (resolver f)))
                                 (resolver f)) f)
  else ret tt.

(** *** [async connect(namespace = '')] *)

(** [new this.drivers[drivername](this.connection)]: an adapter for an own
    key; [Object] itself for the inherited key [constructor], and
    [new Object(o)] is [o]; nothing else that [Object.prototype] holds can
    be constructed. *)
Definition construct_driver (slot : DriverSlot) : JS DbDriver :=
  match slot with
  | OwnAdapter kind => ret (Adapter kind)
  | Inherited key =>
      if JSString.eqb key (js "constructor") then ret TheConnection
      else throw (TypeError "this.drivers[drivername] is not a constructor")
  | Missing => throw (TypeError "this.drivers[drivername] is not a constructor")
  end.

(** [this.dbDriver.getSchema(namespace, config.exclude)] *)
Definition driver_getSchema (driver : DbDriver) (knex : Knex)
    (namespace excluded : Value) : JS (Promise Value) :=
  match driver with
  | Adapter kind =>
      async (request (Introspected kind namespace excluded)
                     (Adapter_getSchema kind knex namespace excluded))
  | TheConnection => throw (TypeError "this.dbDriver.getSchema is not a function")
  end.

Definition set_config_connection (v : Value) (knex : Knex) : Knex :=
  mkKnex (mkKnexConfig (client (config knex)) v (exclude (config knex))).

Definition connect (namespace : Value) : JS (Promise unit) :=
  async (
    let namespace := defaultTo emptyString namespace in
    self <- this ;;
    match connection self with
    | None => throw (Error "Invalid Knex instance")
    | Some knex =>
        let drivername := client (config knex) in
        match lookupDriver drivername with
        | Missing => throw (Error "Database driver not available")
        | slot =>
            let knex := set_config_connection
                          (orElse (cfg_connection (config knex)) (VObject [])) knex in
            assign (set_connection (Some knex)) ;;;
            let namespace :=
              orElse (orElse namespace
                             (getProp (cfg_connection (config knex)) "database"))
                     (str "public") in
            driver <- construct_driver slot ;;
            assign (set_dbDriver (Some driver)) ;;;
            schema <- await (driver_getSchema driver knex namespace
                                              (exclude (config knex))) ;;
            assign (set_dbSchema schema) ;;;
            assign (fun f => set_compiler (set_c_dbSchema (dbSchema f) (compiler f)) f) ;;;
            assign (fun f => set_compiler (set_c_dbDriver (dbDriver f) (compiler f)) f) ;;;
            assign (fun f => set_resolver (set_r_dbDriver (dbDriver f) (resolver f)) f) ;;;
            onCompiler Compiler_buildSchema
        end
    end).

(** *** [async getDatabaseSchema(refresh = false)] *)
Definition getDatabaseSchema (refresh : Value) : JS (Promise Value) :=
  async (
    let refresh := defaultTo (VBool false) refresh in
    self <- this ;;
    (if negb (truthy (dbSchema self)) || truthy refresh
     then await (connect VUndefined)
     else ret tt) ;;;
    self <- this ;;
    ret (dbSchema self)).

(** [!!this.connection] *)
Definition hasConnection (f : DB2Graphql) : bool :=
  match connection f with Some _ => true | None => false end.

(** *** [getResolvers()] *)
Definition getResolvers : JS Value :=
  self <- this ;;
  onResolver (Resolver_getResolvers (VBool (hasConnection self))).

(** *** [getSchema(refresh = false)] *)
Definition getSchema (refresh : Value) : JS Value :=
  let refresh := defaultTo (VBool false) refresh in
  self <- this ;;
  (if negb (truthy (gqlSchema self)) || truthy refresh
   then sdl <- onCompiler (Compiler_getSDL refresh (VBool (hasConnection self))) ;;
        assign (set_gqlSchema sdl)
   else ret tt) ;;;
  self <- this ;;
  ret (gqlSchema self).

(** *** [withBuilder()] *)

Definition queryAlterColumnParams : Value :=
  VObject [(js "tablename", str "String!"); (js "columnname", str "String!");
           (js "type", str "String!"); (js "foreign", str "String")].

Definition queryDropColumnParams : Value :=
  VObject [(js "tablename", str "String!"); (js "columnname", str "String!")].

Definition queryAddTableParams : Value :=
  VObject [(js "tablename", str "String!"); (js "primary", str "String!");
           (js "type", str "String!"); (js "increments", str "Boolean")].

Definition withBuilder : JS Self :=
  add (str "Query") (str "getSchema") (str "String")
      (VFunction BuilderGetSchema) VUndefined ;;;
  add (str "Query") (str "addSchemaColumn") (str "Boolean")
      (VFunction AddSchemaColumn) queryAlterColumnParams ;;;
  add (str "Query") (str "dropSchemaColumn") (str "Boolean")
      (VFunction DropSchemaColumn) queryDropColumnParams ;;;
  add (str "Query") (str "addSchemaTable") (str "Boolean")
      (VFunction AddSchemaTable) queryAddTableParams ;;;
  add (str "Query") (str "dropSchemaTable") (str "Boolean")
      (VFunction DropSchemaTable) (VObject [(js "tablename", str "String!")]) ;;;
  ret This.

(** *** The resolvers [withBuilder] registers *)

(** [context.ioc]: the resolver engine and the Knex instance. *)
Record IOC : Type := mkIOC {
  ioc_resolver : Resolver ResolverState;
  ioc_db : option Knex }.

(** [resolver.dbDriver.constructor.getAvailableTypes()] *)
Definition availableTypes (r : Resolver ResolverState) : JS (list jsstring) :=
  match r_dbDriver r with
  | None => throw (TypeError "Cannot read properties of null (reading 'constructor')")
  | Some (Adapter kind) => ret (Adapter_getAvailableTypes kind)
  | Some TheConnection =>
      throw (TypeError "resolver.dbDriver.constructor.getAvailableTypes is not a function")
  end.

(** [db.schema.table(...)], [db.schema.createTable(...)],
    [db.schema.dropTable(...)] *)
Definition db_schema (db : option Knex) (rq : SchemaRequest) : JS (Promise unit) :=
  match db with
  | None => throw (TypeError "Cannot read properties of undefined (reading 'schema')")
  | Some knex => async (request (SchemaRequested rq) (Knex_schema knex rq))
  end.

Definition when (c : Value) (calls : list TableCall) : list TableCall :=
  if truthy c then calls else [].

(** The arguments of a field, always an object: [args.k] *)
Definition Args : Type := list (jsstring * Value).

Definition arg (args : Args) (k : string) : Value := lookupProp (js k) args.

(** The callback [addSchemaColumn] hands to [db.schema.table] *)
Definition addColumnCalls (args : Args) : list TableCall :=
  [CallColumn (arg args "type") (arg args "columnname")
              (ChainDefaultTo (orElse (arg args "default") VNull))]
  ++ when (arg args "unique") [CallUnique (arg args "columnname")]
  ++ when (arg args "index") [CallIndex (arg args "columnname")]
  ++ when (arg args "foreign")
          [CallForeign (arg args "columnname") (arg args "foreign")].

Definition addSchemaColumn (root : Value) (args : Args) (ioc : IOC) : JS (Promise Value) :=
  async (
    types <- availableTypes (ioc_resolver ioc) ;;
    if notListed (arg args "type") types then ret (VBool false)
    else
      tryCatch
        (await (db_schema (ioc_db ioc)
                 (SchemaTable (arg args "tablename") (addColumnCalls args))) ;;;
         ret (VBool true))
        (fun err => ret (VBool false))).

Definition dropSchemaColumn (root : Value) (args : Args) (ioc : IOC) : JS (Promise Value) :=
  async (
    tryCatch
      (await (db_schema (ioc_db ioc)
               (SchemaTable (arg args "tablename")
                            [CallDropColumn (arg args "columnname")])) ;;;
       ret (VBool true))
      (fun err => ret (VBool false))).

(** The callback [addSchemaTable] hands to [db.schema.createTable] *)
Definition createTableCalls (args : Args) : list TableCall :=
  if truthy (arg args "increments")
  then [CallIncrements (arg args "primary")]
  else [CallColumn (arg args "type") (arg args "primary") ChainPrimary].

Definition addSchemaTable (root : Value) (args : Args) (ioc : IOC) : JS (Promise Value) :=
  async (
    types <- availableTypes (ioc_resolver ioc) ;;
    if notListed (arg args "type") types then ret (VBool false)
    else
      tryCatch
        (await (db_schema (ioc_db ioc)
                 (SchemaCreateTable (arg args "tablename") (createTableCalls args))) ;;;
         ret (VBool true))
        (fun err => ret (VBool false))).

Definition dropSchemaTable (root : Value) (args : Args) (ioc : IOC) : JS (Promise Value) :=
  async (
    tryCatch
      (await (db_schema (ioc_db ioc) (SchemaDropTable (arg args "tablename"))) ;;;
       ret (VBool true))
      (fun err => ret (VBool false))).

(** Calling one of the functions [withBuilder] creates. *)
Definition call (fn : Closure) (root : Value) (args : Args) (ioc : IOC)
  : option (JS (Promise Value)) :=
  match fn with
  | BuilderGetSchema =>
      Some (async (self <- this ;; ret (JSON_stringify (dbSchema self))))
  | AddSchemaColumn => Some (addSchemaColumn root args ioc)
  | DropSchemaColumn => Some (dropSchemaColumn root args ioc)
  | AddSchemaTable => Some (addSchemaTable root args ioc)
  | DropSchemaTable => Some (dropSchemaTable root args ioc)
  | UserFunction _ | ApiName _ => None
  end.

(** The four resolvers of [withBuilder] that change the database schema. *)
Definition schemaBuilders : list Closure :=
  [AddSchemaColumn; DropSchemaColumn; AddSchemaTable; DropSchemaTable].

(** What each of them asks of the database, once it gets that far. *)
Definition requestOf (fn : Closure) (args : Args) : option SchemaRequest :=
  match fn with
  | AddSchemaColumn =>
      Some (SchemaTable (arg args "tablename") (addColumnCalls args))
  | DropSchemaColumn =>
      Some (SchemaTable (arg args "tablename") [CallDropColumn (arg args "columnname")])
  | AddSchemaTable =>
      Some (SchemaCreateTable (arg args "tablename") (createTableCalls args))
  | DropSchemaTable => Some (SchemaDropTable (arg args "tablename"))
  | _ => None
  end.

(** The two that check the column type first. *)
Definition checksType (fn : Closure) : bool :=
  match fn with
  | AddSchemaColumn | AddSchemaTable => true
  | _ => false
  end.

(** The requested column type is one the driver of the resolver offers. *)
Definition typeOffered (args : Args) (ioc : IOC) : bool :=
  match r_dbDriver (ioc_resolver ioc) with
  | Some (Adapter kind) =>
      negb (notListed (arg args "type") (Adapter_getAvailableTypes kind))
  | _ => false
  end.

Definition succeeded {A} (c : Completion A) : bool :=
  match c with Normal _ => true | Throw _ => false end.

Definition hookOf (w : World) : BeforeHook := beforeHook (resolver (facade w)).

(** A computation that relates the world it leaves to the world it found,
    whether it returns or throws. *)
Definition preserves {A} (R : World -> World -> Prop) (m : JS A) : Prop :=
  forall w, R w (snd (m w)).

(** The rendered schema the facade holds is the same in both worlds. *)
Definition sameSchemaText (w w' : World) : Prop :=
  gqlSchema (facade w') = gqlSchema (facade w).

(** The before-hook is the same in both worlds. *)
Definition sameHook (w w' : World) : Prop := hookOf w' = hookOf w.

(** What the compiler of the facade keeps. *)
Definition registriesOf (w : World) : CompilerState := c_state (compiler (facade w)).

(** So is, besides, the connection. *)
Definition sameFront (w w' : World) : Prop :=
  connection (facade w') = connection (facade w)
  /\ gqlSchema (facade w') = gqlSchema (facade w).

(** *** Using the facade *)

(** One use of the facade by its caller, or one request reaching a
    function that [withBuilder] registered. *)
Inductive Call : Type :=
| DoAdd (type field returns resolver params : Value)
| DoAddField (path : jsstring) (returns resolver params : Value)
| DoAddInput (path : jsstring) (subType : Value)
| DoOnBefore (validator rejected : Value)
| DoConnect (namespace : Value)
| DoGetDatabaseSchema (refresh : Value)
| DoGetResolvers
| DoGetSchema (refresh : Value)
| DoWithBuilder
| DoRequest (fn : Closure) (root : Value) (args : Args) (ioc : IOC).

Definition after {A} (m : JS A) (w : World) : World := snd (m w).

(** The world a call leaves behind, whether it returned or threw. A
    request reaches one of the functions the facade made itself; what the
    callbacks of the caller do is theirs. *)
Definition perform (c : Call) (w : World) : World :=
  match c with
  | DoAdd type field returns resolver params =>
      after (add type field returns resolver params) w
  | DoAddField path returns resolver params =>
      after (addField path returns resolver params) w
  | DoAddInput path subType => after (addInput path subType) w
  | DoOnBefore validator rejected => after (onBefore validator rejected) w
  | DoConnect namespace => after (connect namespace) w
  | DoGetDatabaseSchema refresh => after (getDatabaseSchema refresh) w
  | DoGetResolvers => after getResolvers w
  | DoGetSchema refresh => after (getSchema refresh) w
  | DoWithBuilder => after withBuilder w
  | DoRequest fn root args ioc =>
      match call fn root args ioc with
      | Some m => after m w
      | None => w
      end
  end.

Definition performAll (calls : list Call) (w : World) : World :=
  fold_left (fun w c => perform c w) calls w.

(** A call that asks [getSchema] for a fresh rendering. *)
Definition refreshes (c : Call) : bool :=
  match c with
  | DoGetSchema refresh => truthy (defaultTo (VBool false) refresh)
  | _ => false
  end.

End Facade.

(** ** The compiler and the resolver, after the specification

    [src/graphql/compiler] and [src/graphql/resolver] are required by
    [db2g.js] but are not among the sources. Where a concrete compiler and
    resolver are needed, they are the ones below. *)

Module Spec.

(** Modelled from the spec: the compiler source (src/graphql/compiler) is
    missing; a registry entry is either added manually through [addType] or
    [addInput], or derived from the database by [buildSchema]. *)
Inductive Origin : Type := Manual | Database.

(** Modelled from the spec: the compiler source is missing; "each field:
    name, return-type descriptor, argument descriptor". *)
Record FieldEntry : Type := mkFieldEntry {
  fieldName : jsstring;
  returnType : Value;
  argsSchema : Value;
  origin : Origin }.

(** Modelled from the spec: the compiler source is missing; the Compiled
    Type Registry is a "mapping from type name to its field list". *)
Definition Registry : Type := list (jsstring * list FieldEntry).

(** Modelled from the spec: the compiler source is missing; "inserts or
    overwrites the field entry". *)
Fixpoint putField (e : FieldEntry) (fields : list FieldEntry) : list FieldEntry :=
  match fields with
  | [] => [e]
  | e' :: rest =>
      if JSString.eqb (fieldName e) (fieldName e') then e :: rest
      else e' :: putField e rest
  end.

(** Modelled from the spec: the compiler source is missing; "idempotently
    ensures typeName exists and inserts or overwrites the field entry". *)
Fixpoint putType (typeName : jsstring) (e : FieldEntry) (reg : Registry) : Registry :=
  match reg with
  | [] => [(typeName, [e])]
  | (name, fields) :: rest =>
      if JSString.eqb typeName name then (name, putField e fields) :: rest
      else (name, fields) :: putType typeName e rest
  end.

(** Modelled from the spec: the compiler source is missing; an entry that
    was "added manually via addType/addInput". *)
Definition isManual (e : FieldEntry) : bool :=
  match origin e with Manual => true | Database => false end.

(** Modelled from the spec: the compiler source is missing; "only types
    added manually via addType/addInput are rendered": the manual entries
    of a registry, and the types that have any. *)
Definition manualOf (reg : Registry) : Registry :=
  filter (fun '(_, fields) => negb (List.length fields =? 0)%nat)
         (map (fun '(name, fields) => (name, filter isManual fields)) reg).

(** Modelled from the spec: the compiler source is missing; the line
    break of the schema text. *)
Definition newline : jsstring := [10%N].

(** Modelled from the spec: the compiler source is missing; the text of a
    return-type descriptor, "a scalar identifier, a type name, or a
    single-element sequence denoting a list of that type". *)
Definition renderReturnType (v : Value) : jsstring :=
  match v with
  | VString s => s
  | VArray [VString s] => js "[" ++ s ++ js "]"
  | _ => []
  end.

(** Modelled from the spec: the compiler source is missing; the text of an
    argument descriptor, one [name: type] per argument. *)
Fixpoint renderArgs (props : list (jsstring * Value)) : jsstring :=
  match props with
  | [] => []
  | [(k, v)] => k ++ js ": " ++ renderReturnType v
  | (k, v) :: rest => k ++ js ": " ++ renderReturnType v ++ js ", " ++ renderArgs rest
  end.

(** Modelled from the spec: the compiler source is missing; one field of a
    type in "a standard graph-API type-definition document". *)
Definition renderField (e : FieldEntry) : jsstring :=
  js "  " ++ fieldName e
    ++ match argsSchema e with
       | VObject (p :: props) => js "(" ++ renderArgs (p :: props) ++ js ")"
       | _ => []
       end
    ++ js ": " ++ renderReturnType (returnType e) ++ newline.

(** Modelled from the spec: the compiler source is missing; the types of a
    registry as type-definition text, nothing for an empty registry. *)
Definition render (keyword : string) (reg : Registry) : jsstring :=
  List.concat (map (fun '(name, fields) =>
                 js keyword ++ js " " ++ name ++ js " {" ++ newline
                   ++ List.concat (map renderField fields) ++ js "}" ++ newline)
              reg).

(** Modelled from the spec: the compiler source is missing; what the
    compiler keeps: the registries of types and of input types. *)
Record Registries : Type := mkRegistries {
  types : Registry;
  inputs : Registry }.

(** Modelled from the spec: the compiler source is missing; a field that
    [buildSchema] derives from the Schema Descriptor, for a type or for an
    input type. *)
Record Derived : Type := mkDerived {
  forInput : bool;
  ofType : jsstring;
  entry : FieldEntry }.

(** Modelled from the spec: the resolver source (src/graphql/resolver) is
    missing; the Resolver Map, a "mapping from (type, field) to a
    resolution function", holding the overrides of the caller. *)
Definition Overrides : Type := list ((jsstring * jsstring) * Value).

Section Model.

(** How [buildSchema] turns a Schema Descriptor into fields (sections 4.2
    and 4.3 of the specification), and how the database answers. *)
Variable derive : Value -> list Derived.
Variable introspect : DriverKind -> Knex -> Value -> Value -> list Event -> Completion Value.
Variable columnTypes : DriverKind -> list jsstring.
Variable knex_schema : Knex -> SchemaRequest -> list Event -> Completion unit.
Variable stringify : Value -> Value.

(** Modelled from the spec: the compiler source is missing; the compiler
    with other registries. *)
Definition set_state (st : Registries) (c : Compiler Registries) :=
  mkCompiler (c_dbSchema c) (c_dbDriver c) st.

(** Modelled from the spec: the compiler source is missing;
    [addType(typeName, fieldName, returnType, argsSchema)], "no error
    unless typeName/fieldName is empty". *)
Definition addType (typeName field returns args : Value)
  : M (Compiler Registries) unit :=
  match typeName, field with
  | VString (t :: ts), VString (f :: fs) =>
      modify (fun c =>
        set_state (mkRegistries
                     (putType (t :: ts) (mkFieldEntry (f :: fs) returns args Manual)
                              (types (c_state c)))
                     (inputs (c_state c))) c)
  | _, _ => throw (Error "type and field names must not be empty")
  end.

(** Modelled from the spec: the compiler source is missing;
    [addInput(typeName, fieldName, subType)], "same, but targets the
    input-type namespace". *)
Definition addInput (typeName field subType : Value)
  : M (Compiler Registries) unit :=
  match typeName, field with
  | VString (t :: ts), VString (f :: fs) =>
      modify (fun c =>
        set_state (mkRegistries
                     (types (c_state c))
                     (putType (t :: ts)
                              (mkFieldEntry (f :: fs) subType VUndefined Manual)
                              (inputs (c_state c)))) c)
  | _, _ => throw (Error "type and field names must not be empty")
  end.

(** Modelled from the spec: the compiler source is missing; a derived
    field enters the registry of types or of input types as database-backed. *)
Definition putDerived (st : Registries) (d : Derived) : Registries :=
  let e := mkFieldEntry (fieldName (entry d)) (returnType (entry d))
                        (argsSchema (entry d)) Database in
  if forInput d
  then mkRegistries (types st) (putType (ofType d) e (inputs st))
  else mkRegistries (putType (ofType d) e (types st)) (inputs st).

(** Modelled from the spec: the compiler source is missing;
    [buildSchema()] derives the database-backed fields from the Schema
    Descriptor the facade stored in [dbSchema]. *)
Definition buildSchema : M (Compiler Registries) unit :=
  modify (fun c =>
    set_state (fold_left putDerived (derive (c_dbSchema c)) (c_state c)) c).

(** Modelled from the spec: the compiler source is missing; "if
    hasConnection is false, only types added manually via addType/addInput
    are rendered". *)
Definition shown (hasConnection : Value) (reg : Registry) : Registry :=
  if truthy hasConnection then reg else manualOf reg.

(** Modelled from the spec: the compiler source is missing;
    [getSDL(refresh, hasConnection)] "renders the Compiled Type Registry
    to schema text. Idempotent and cached: subsequent calls return the
    previously rendered text unless refresh is set or the registry
    changed. If hasConnection is false, only types added manually via
    addType/addInput are rendered". The text is a function of the
    registry and of the flag, so that a call repeated on an unchanged
    registry returns the text of the call before, cached or not. *)
Definition sdlOf (hasConnection : Value) (st : Registries) : jsstring :=
  render "type" (shown hasConnection (types st))
    ++ render "input" (shown hasConnection (inputs st)).

(** Modelled from the spec: the compiler source is missing;
    [getSDL(refresh, hasConnection)] returns the text of the registry. *)
Definition getSDL (refresh hasConnection : Value) : M (Compiler Registries) Value :=
  c <- get ;;
  ret (VString (sdlOf hasConnection (c_state c))).

(** Modelled from the spec: the resolver source is missing; "replaces the
    resolver map entry for (type, field)". *)
Fixpoint putOverride (k : jsstring * jsstring) (handler : Value)
    (map : Overrides) : Overrides :=
  match map with
  | [] => [(k, handler)]
  | (k', h) :: rest =>
      if JSString.eqb (fst k) (fst k') && JSString.eqb (snd k) (snd k')
      then (k, handler) :: rest
      else (k', h) :: putOverride k handler rest
  end.

(** Modelled from the spec: the resolver source is missing; "on(type,
    field, handler) (named add in the public facade) replaces the
    resolver map entry for (type, field)". *)
Definition resolver_add (typeName field handler : Value)
  : M (Resolver Overrides) unit :=
  match typeName, field with
  | VString t, VString f =>
      modify (fun r => mkResolver (beforeHook r) (r_dbDriver r)
                                  (putOverride (t, f) handler (r_state r)))
  | _, _ => throw (TypeError "type and field must be strings")
  end.

(** Modelled from the spec: the resolver source is missing; the
    "resolver map consumed by a graph-API execution runtime", here the
    overrides as one object per entry. *)
Definition getResolvers (hasConnection : Value) : M (Resolver Overrides) Value :=
  r <- get ;;
  ret (VArray (map (fun '((t, f), h) => VArray [VString t; VString f; h]) (r_state r))).

(** Modelled from the spec: the compiler and resolver sources are
    missing; the modules the facade requires, with empty registries and a
    before-hook whose two callbacks are the resolver's own. *)
Definition model : Required := {|
  CompilerState := Registries;
  ResolverState := Overrides;
  Compiler_new := mkCompiler VNull None (mkRegistries [] []);
  Compiler_addType := addType;
  Compiler_addInput := addInput;
  Compiler_buildSchema := buildSchema;
  Compiler_getSDL := getSDL;
  Resolver_new :=
    mkResolver (mkBeforeHook (VFunction (UserFunction 0)) (VFunction (UserFunction 1)))
               None [];
  Resolver_add := resolver_add;
  Resolver_getResolvers := getResolvers;
  Adapter_getSchema := introspect;
  Adapter_getAvailableTypes := columnTypes;
  Knex_schema := knex_schema;
  JSON_stringify := stringify |}.

End Model.

End Spec.

(** A database for the examples: it knows two column types, describes an
    empty schema, alters and creates tables and refuses to drop them. *)
Definition exampleDatabase : Required :=
  Spec.model
    (fun _ => [])
    (fun _ _ _ _ _ => Normal (VObject []))
    (fun _ => [js "string"; js "integer"])
    (fun _ rq _ => match rq with
                   | SchemaDropTable _ => Throw (Error "table is in use")
                   | _ => Normal tt
                   end)
    (fun _ => VString []).

(** A facade built without name and without connection, and one built
    around a Knex instance for SQLite. *)
Definition emptyWorld : @World exampleDatabase :=
  snd (@construct exampleDatabase VUndefined None []).

Definition sqliteWorld : @World exampleDatabase :=
  snd (@construct exampleDatabase VUndefined
         (Some (mkKnex (mkKnexConfig (js "sqlite3") VUndefined VUndefined))) []).

(** A Knex instance whose configuration names [constructor] as its client. *)
Definition oddWorld : @World exampleDatabase :=
  snd (@construct exampleDatabase VUndefined
         (Some (mkKnex (mkKnexConfig (js "constructor") VUndefined VUndefined))) []).

(** A facade built with a name; its constructor registers
    [Query.getAPIName]. *)
Definition namedWorld : @World exampleDatabase :=
  snd (@construct exampleDatabase (str "blog") None []).

(** That facade after a first [getSchema()], and the text it rendered. *)
Definition renderedWorld : @World exampleDatabase :=
  after (getSchema VUndefined) namedWorld.

Definition renderedText : Value := gqlSchema (facade renderedWorld).

(** The resolver engine and the Knex instance a request brings along, here
    with a PostgreSQL adapter in place. *)
Definition exampleIOC : @IOC exampleDatabase :=
  mkIOC (mkResolver (mkBeforeHook VNull VNull) (Some (Adapter PostgreSQL))
                    ([] : @ResolverState exampleDatabase))
        (Some (mkKnex (mkKnexConfig (js "pg") VUndefined VUndefined))).

(** A facade without connection whose compiler nevertheless holds a
    database-backed field, [Users.id], next to a manual one. *)
Definition mixedWorld : @World exampleDatabase :=
  mkWorld
    (mkDB2Graphql None VNull VNull
       (mkCompiler VNull None
          (Spec.mkRegistries
             [(js "Users",
               [Spec.mkFieldEntry (js "id") (str "Int") VUndefined Spec.Database;
                Spec.mkFieldEntry (js "fullname") (str "String") VUndefined Spec.Manual]);
              (js "Posts",
               [Spec.mkFieldEntry (js "id") (str "Int") VUndefined Spec.Database])]
             [] : @CompilerState exampleDatabase))
       Resolver_new None)
    [].

(** The keys under which [this.drivers[key]] is not [undefined]: the two of
    the object itself and the ones it inherits. *)
Definition knownKeys : list jsstring := js "pg" :: js "mysql" :: objectPrototypeKeys.

(** [connect] throwing to its caller, the way [addField] does, and leaving
    the world as it was. *)
Definition throwsSynchronously `{Required} (namespace : Value) (w : World) : Prop :=
  exists e, connect namespace w = (Throw e, w).

(** Modelled from the spec: the compiler source is missing; the text that
    [getSDL] renders when [hasConnection] is false, "only types added
    manually via addType/addInput". *)
Definition manualText (st : Spec.Registries) : Value :=
  VString (Spec.render "type" (Spec.manualOf (Spec.types st))
           ++ Spec.render "input" (Spec.manualOf (Spec.inputs st))).

(** ** Further notions for the facade *)

(** The database has been reached no further. *)
Definition sameTrace `{Required} (w w' : World) : Prop := trace w' = trace w.

(** The calls that can reach the database: [connect], [getDatabaseSchema]
    and a request to one of the functions of [withBuilder]. *)
Definition reachesDatabase `{Required} (c : Call) : bool :=
  match c with
  | DoConnect _ | DoGetDatabaseSchema _ | DoRequest _ _ _ _ => true
  | _ => false
  end.

(** [config.connection || {}], the configuration as [connect] completes it. *)
Definition completed (knex : Knex) : Knex :=
  set_config_connection (orElse (cfg_connection (config knex)) (VObject [])) knex.

(** [namespace || config.connection.database || 'public'], on the completed
    configuration and with the default of the parameter applied. *)
Definition namespaceFor (namespace : Value) (knex : Knex) : Value :=
  orElse (orElse (defaultTo emptyString namespace)
                 (getProp (cfg_connection (config (completed knex))) "database"))
         (str "public").

(** A string of white space only. *)
Definition blank (s : jsstring) : bool := forallb JSString.isWhiteSpace s.

(** Modules that fail: the resolver refuses every [add], the compiler cannot
    build and renders only when no refresh is asked for, and introspection
    of a PostgreSQL database is refused. *)
Definition failingModules : Required := {|
  CompilerState := Spec.Registries;
  ResolverState := Spec.Overrides;
  Compiler_new := mkCompiler VNull None (Spec.mkRegistries [] []);
  Compiler_addType := Spec.addType;
  Compiler_addInput := Spec.addInput;
  Compiler_buildSchema := throw (Error "cannot build");
  Compiler_getSDL := fun refresh _ =>
    if truthy refresh then throw (Error "cannot render")
    else ret (str "type Query");
  Resolver_new := mkResolver (mkBeforeHook VNull VNull) None [];
  Resolver_add := fun _ _ _ => throw (Error "resolver is closed");
  Resolver_getResolvers := Spec.getResolvers;
  Adapter_getSchema := fun kind _ _ _ _ =>
    match kind with
    | PostgreSQL => Throw (Error "connection refused")
    | Mysql => Normal (VObject [])
    end;
  Adapter_getAvailableTypes := fun _ => [];
  Knex_schema := fun _ _ _ => Normal tt;
  JSON_stringify := fun v => v |}.

(** A Knex instance for PostgreSQL with a database named in its
    configuration, and the facade built around it. *)
Definition blogKnex : Knex :=
  mkKnex (mkKnexConfig (js "pg") (VObject [(js "database", str "blog")]) VUndefined).

Definition blogWorld : @World exampleDatabase :=
  snd (@construct exampleDatabase VUndefined (Some blogKnex) []).

(** The same connection, and one for MySQL without configuration of the
    connection, in front of the modules that fail. *)
Definition mysqlKnex : Knex :=
  mkKnex (mkKnexConfig (js "mysql") VUndefined VUndefined).

Definition refusedWorld : @World failingModules :=
  snd (@construct failingModules VUndefined (Some blogKnex) []).

Definition unbuiltWorld : @World failingModules :=
  snd (@construct failingModules VUndefined (Some mysqlKnex) []).

(** The Knex instance, the database schema and the driver the facade holds
    are the same in both worlds. *)
Definition sameLink `{Required} (w w' : World) : Prop :=
  connection (facade w') = connection (facade w)
  /\ dbSchema (facade w') = dbSchema (facade w)
  /\ dbDriver (facade w') = dbDriver (facade w).

(** A call that connects: [connect], and [getDatabaseSchema], which may. *)
Definition connects `{Required} (c : Call) : bool :=
  match c with
  | DoConnect _ | DoGetDatabaseSchema _ => true
  | _ => false
  end.

(** A call that introspects again whatever the facade holds. *)
Definition reconnects `{Required} (c : Call) : bool :=
  match c with
  | DoConnect _ => true
  | DoGetDatabaseSchema refresh => truthy (defaultTo (VBool false) refresh)
  | _ => false
  end.

(** [getDatabaseSchema] has to connect: nothing truthy is held, or a
    refresh is asked for. *)
Definition mustConnect `{Required} (refresh : Value) (w : World) : bool :=
  negb (truthy (dbSchema (facade w))) || truthy (defaultTo (VBool false) refresh).

(** What the promise of [getDatabaseSchema] holds once [connect()] is
    over: the schema the facade then holds, or the error of [connect]. *)
Definition settled (connected : Completion (Promise unit)) (held : Value)
  : Promise Value :=
  match connected with
  | Normal (Fulfilled _) => Fulfilled held
  | Normal (Rejected e) => Rejected e
  | Throw e => Rejected e
  end.

(** The facade around [blogKnex] after its first [getDatabaseSchema()]. *)
Definition loadedWorld : @World exampleDatabase :=
  snd (getDatabaseSchema VUndefined blogWorld).

(** The facade in front of the modules that fail, after a first
    [getSchema()]. *)
Definition shownWorld : @World failingModules :=
  snd (getSchema VUndefined refusedWorld).

(** What a request brings along before the facade was ever connected: a
    resolver engine without driver, and no Knex instance. *)
Definition bareIOC : @IOC exampleDatabase :=
  mkIOC (mkResolver (mkBeforeHook VNull VNull) None
                    ([] : @ResolverState exampleDatabase))
        None.

(** The same engine as [exampleIOC], without Knex instance. *)
Definition offlineIOC : @IOC exampleDatabase :=
  mkIOC (ioc_resolver exampleIOC) None.

(** The arguments of a request for a table [posts] with a key [id]. *)
Definition postsTable : Args :=
  [(js "tablename", str "posts"); (js "primary", str "id");
   (js "type", str "integer")].

(** A compiler that counts: it keeps how many fields were registered and
    how many renderings it made, and renders one letter for each field, so
    the empty text for an empty registry. With it, whether [getSDL] was
    called shows in the state of the compiler. *)
Definition countingModules : Required := {|
  CompilerState := (nat * nat)%type;
  ResolverState := unit;
  Compiler_new := mkCompiler VNull None (0, 0)%nat;
  Compiler_addType := fun _ _ _ _ c =>
    (Normal tt,
     mkCompiler (c_dbSchema c) (c_dbDriver c) (S (fst (c_state c)), snd (c_state c)));
  Compiler_addInput := fun _ _ _ c =>
    (Normal tt,
     mkCompiler (c_dbSchema c) (c_dbDriver c) (S (fst (c_state c)), snd (c_state c)));
  Compiler_buildSchema := ret tt;
  Compiler_getSDL := fun _ _ c =>
    (Normal (VString (repeat 102%N (fst (c_state c)))),
     mkCompiler (c_dbSchema c) (c_dbDriver c) (fst (c_state c), S (snd (c_state c))));
  Resolver_new := mkResolver (mkBeforeHook VNull VNull) None tt;
  Resolver_add := fun _ _ _ => ret tt;
  Resolver_getResolvers := fun _ => ret (VArray []);
  Adapter_getSchema := fun _ _ _ _ _ => Normal (VObject []);
  Adapter_getAvailableTypes := fun _ => [];
  Knex_schema := fun _ _ _ => Normal tt;
  JSON_stringify := fun v => v |}.

(** How many fields its compiler holds, and how many times it rendered. *)
Definition fieldsOf (w : @World countingModules) : nat :=
  fst (c_state (compiler (facade w)) : nat * nat).

Definition renderings (w : @World countingModules) : nat :=
  snd (c_state (compiler (facade w)) : nat * nat).

(** A facade in front of the counting compiler, with nothing registered,
    and the same with one field. *)
Definition blankWorld : @World countingModules :=
  snd (@construct countingModules VUndefined None []).

Definition oneFieldWorld : @World countingModules :=
  after (addField (js "Query.posts") (VArray [str "Post"])
                  (VFunction (UserFunction 7)) VUndefined) blankWorld.

(** * Properties *)

(** ** Splitting and trimming *)

Section Splitting.

Variable sep : N.

Lemma split_not_nil (s : jsstring) : JSString.split sep s <> [].
Proof.
  destruct s as [|c r]; simpl; [discriminate|].
  destruct (c =? sep)%N; [discriminate|].
  destruct (JSString.split sep r); discriminate.
Qed.

Lemma split_without_separator (s : jsstring) :
  ~ In sep s -> JSString.split sep s = [s].
Proof.
  induction s as [|c r IH]; intros Hfree; [reflexivity|].
  simpl. destruct (N.eqb_spec c sep) as [->|Hne].
  - exfalso. apply Hfree. now left.
  - rewrite IH; [reflexivity|]. intros Hin. apply Hfree. now right.
Qed.

Lemma split_at_separator (a b : jsstring) :
  ~ In sep a -> JSString.split sep (a ++ sep :: b) = a :: JSString.split sep b.
Proof.
  induction a as [|c r IH]; intros Hfree; simpl.
  - now rewrite N.eqb_refl.
  - destruct (N.eqb_spec c sep) as [->|Hne].
    + exfalso. apply Hfree. now left.
    + rewrite IH; [reflexivity|]. intros Hin. apply Hfree. now right.
Qed.

(** Splitting a string that ends in one more code unit. *)
Lemma split_snoc (s : jsstring) (c : N) :
  JSString.split sep (s ++ [c])
  = if (c =? sep)%N then JSString.split sep s ++ [[]]
    else removelast (JSString.split sep s)
         ++ [last (JSString.split sep s) [] ++ [c]].
Proof.
  induction s as [|d r IH]; simpl.
  - now destruct (c =? sep)%N.
  - destruct (d =? sep)%N.
    + rewrite IH. destruct (c =? sep)%N; [reflexivity|].
      pose proof (split_not_nil r) as Hnn.
      destruct (JSString.split sep r) as [|p ps]; [contradiction|reflexivity].
    + rewrite IH. pose proof (split_not_nil r) as Hnn.
      destruct (JSString.split sep r) as [|p ps]; [contradiction|].
      destruct (c =? sep)%N; [reflexivity|].
      destruct ps as [|q qs]; reflexivity.
Qed.

(** Splitting the reversed string gives the reversed pieces, in reverse. *)
Lemma split_rev (s : jsstring) :
  JSString.split sep (rev s) = rev (map (@rev N) (JSString.split sep s)).
Proof.
  induction s as [|c r IH]; [reflexivity|].
  simpl rev at 1. rewrite split_snoc, IH. simpl JSString.split.
  pose proof (split_not_nil r) as Hnn.
  destruct (c =? sep)%N; [reflexivity|].
  destruct (JSString.split sep r) as [|p ps]; [contradiction|].
  simpl map. simpl rev.
  rewrite removelast_last, last_last. reflexivity.
Qed.

End Splitting.

Lemma whitespace_is_no_dot (c : N) :
  JSString.isWhiteSpace c = true -> c <> JSString.dot.
Proof. intros Hws ->. discriminate Hws. Qed.

Lemma nonEmptyPieces_app (a b : list jsstring) :
  nonEmptyPieces (a ++ b) = (nonEmptyPieces a + nonEmptyPieces b)%nat.
Proof. unfold nonEmptyPieces. now rewrite filter_app, length_app. Qed.

Lemma isEmpty_rev (p : jsstring) : JSString.isEmpty (rev p) = JSString.isEmpty p.
Proof.
  destruct p as [|c r]; [reflexivity|]. simpl.
  now destruct (rev r).
Qed.

Lemma nonEmptyPieces_rev (pieces : list jsstring) :
  nonEmptyPieces (rev (map (@rev N) pieces)) = nonEmptyPieces pieces.
Proof.
  induction pieces as [|p ps IH]; [reflexivity|].
  cbn [map rev]. rewrite nonEmptyPieces_app, IH.
  change (p :: ps) with ([p] ++ ps). rewrite nonEmptyPieces_app.
  unfold nonEmptyPieces at 2 3. cbn [filter truthy]. rewrite isEmpty_rev.
  destruct (negb (JSString.isEmpty p)); simpl; lia.
Qed.

(** Trimming takes code units away from the first and from the last piece
    only: no piece that was empty comes to hold something. *)
Lemma trimStart_pieces (s : jsstring) :
  (nonEmptyPieces (JSString.split JSString.dot (JSString.trimStart s))
   <= nonEmptyPieces (JSString.split JSString.dot s))%nat.
Proof.
  induction s as [|c r IH]; [apply Nat.le_refl|].
  simpl JSString.trimStart.
  destruct (JSString.isWhiteSpace c) eqn:Hws; [|apply Nat.le_refl].
  apply whitespace_is_no_dot in Hws. apply N.eqb_neq in Hws.
  eapply Nat.le_trans; [exact IH|].
  simpl JSString.split. rewrite Hws.
  pose proof (split_not_nil JSString.dot r) as Hnn.
  destruct (JSString.split JSString.dot r) as [|p ps]; [contradiction|].
  unfold nonEmptyPieces. simpl.
  destruct (negb (JSString.isEmpty p)); simpl; lia.
Qed.

Lemma trim_pieces (s : jsstring) :
  (nonEmptyPieces (JSString.split JSString.dot (JSString.trim s))
   <= nonEmptyPieces (JSString.split JSString.dot s))%nat.
Proof.
  unfold JSString.trim, JSString.trimEnd.
  rewrite split_rev, nonEmptyPieces_rev.
  eapply Nat.le_trans; [apply trimStart_pieces|].
  rewrite split_rev, nonEmptyPieces_rev.
  apply trimStart_pieces.
Qed.

Lemma trimStart_fixed (c : N) (r : jsstring) :
  JSString.isWhiteSpace c = false -> JSString.trimStart (c :: r) = c :: r.
Proof. intros Hc. simpl. now rewrite Hc. Qed.

(** A string that neither starts nor ends with white space is its own trim. *)
Lemma trim_fixed (first last : N) (middle : jsstring) :
  JSString.isWhiteSpace first = false ->
  JSString.isWhiteSpace last = false ->
  JSString.trim (first :: middle ++ [last]) = first :: middle ++ [last].
Proof.
  intros Hfirst Hlast. unfold JSString.trim, JSString.trimEnd.
  rewrite trimStart_fixed by exact Hfirst.
  replace (rev (first :: middle ++ [last])) with (last :: rev middle ++ [first]).
  - rewrite trimStart_fixed by exact Hlast.
    simpl. rewrite rev_app_distr. simpl. now rewrite rev_involutive.
  - simpl. rewrite rev_app_distr. reflexivity.
Qed.

Lemma split_joinDots (segments : list jsstring) :
  segments <> [] ->
  Forall (fun s => ~ In JSString.dot s) segments ->
  JSString.split JSString.dot (joinDots segments) = segments.
Proof.
  induction segments as [|s rest IH]; intros Hsome Hfree; [contradiction|].
  inversion Hfree as [|? ? Hs Hrest]; subst.
  destruct rest as [|s' rest'].
  - simpl. now apply split_without_separator.
  - change (joinDots (s :: s' :: rest')) with (s ++ JSString.dot :: joinDots (s' :: rest')).
    rewrite split_at_separator by exact Hs.
    rewrite IH; [reflexivity|discriminate|exact Hrest].
Qed.

(** The segments of a path written [a.b.c], free of white space around it,
    are the names between its dots. *)
Lemma segmentsOf_joinDots (segments : list jsstring) :
  segments <> [] ->
  Forall (fun s => s <> [] /\ ~ In JSString.dot s) segments ->
  JSString.trim (joinDots segments) = joinDots segments ->
  segmentsOf (joinDots segments) = segments.
Proof.
  intros Hsome Hall Htrim. unfold segmentsOf. rewrite Htrim.
  rewrite split_joinDots.
  - apply forallb_filter_id. apply forallb_forall. intros s Hs.
    rewrite Forall_forall in Hall. destruct (Hall s Hs) as [Hne _].
    now destruct s.
  - exact Hsome.
  - eapply Forall_impl; [|exact Hall]. now intros s [_ Hs].
Qed.

(** A path whose split holds fewer than two non-empty pieces has fewer than
    two segments for [addField] and [addInput], which trim it first. *)
Lemma segmentsOf_short (path : jsstring) :
  (nonEmptyPieces (JSString.split JSString.dot path) < 2)%nat ->
  (List.length (segmentsOf path) < 2)%nat.
Proof.
  intros Hshort. pose proof (trim_pieces path) as Htrim.
  unfold segmentsOf. unfold nonEmptyPieces in *. lia.
Qed.

(** The split of JavaScript on a few paths. *)
Example split_of_the_empty_string :
  JSString.split JSString.dot [] = [[]].
Proof. reflexivity. Qed.

Example split_keeps_empty_pieces :
  JSString.split JSString.dot (js "a..b.") = [js "a"; []; js "b"; []].
Proof. reflexivity. Qed.

Example segments_of_a_padded_path :
  segmentsOf (js "  Query.getUser ") = [js "Query"; js "getUser"].
Proof. reflexivity. Qed.

Example segments_of_dots_only : segmentsOf (js "...") = [].
Proof. reflexivity. Qed.

Example segments_when_the_type_is_blank : segmentsOf (js " .getUser") = [js "getUser"].
Proof. reflexivity. Qed.

Section Paths.

Context `{Required}.

Lemma pop_snoc (l : list jsstring) (x : jsstring) :
  pop (l ++ [x]) = (VString x, l).
Proof.
  unfold pop. rewrite rev_app_distr. simpl. now rewrite rev_involutive.
Qed.

(** Once the length check has passed, the two [pop]s take the last two
    segments, whatever comes before them. *)
Lemma addField_on_segments (path : jsstring) (pre : list jsstring)
    (type field : jsstring) (returns handler params : Value) (w : World) :
  segmentsOf path = pre ++ [type; field] ->
  addField path returns handler params w
  = add (VString type) (VString field) returns handler params w.
Proof.
  intros Hseg. unfold addField. rewrite Hseg.
  replace (List.length (pre ++ [type; field]) <? 2)%nat with false
    by (symmetry; apply Nat.ltb_ge; rewrite length_app; simpl; lia).
  replace (pre ++ [type; field]) with ((pre ++ [type]) ++ [field])
    by (now rewrite <- app_assoc).
  rewrite pop_snoc, pop_snoc.
  unfold add, bind, ret.
  replace (defaultTo (VObject []) (defaultTo (VObject []) params))
    with (defaultTo (VObject []) params) by (now destruct params).
  destruct (onCompiler _ w) as [[[]|e] w1]; [|reflexivity].
  destruct (onResolver _ w1) as [[[]|e] w2]; reflexivity.
Qed.

Lemma addInput_on_segments (path : jsstring) (pre : list jsstring)
    (type field : jsstring) (subType : Value) (w : World) :
  segmentsOf path = pre ++ [type; field] ->
  addInput path subType w
  = (onCompiler (Compiler_addInput (VString type) (VString field) subType) ;;;
     ret This) w.
Proof.
  intros Hseg. unfold addInput. rewrite Hseg.
  replace (List.length (pre ++ [type; field]) <? 2)%nat with false
    by (symmetry; apply Nat.ltb_ge; rewrite length_app; simpl; lia).
  replace (pre ++ [type; field]) with ((pre ++ [type]) ++ [field])
    by (now rewrite <- app_assoc).
  now rewrite pop_snoc, pop_snoc.
Qed.

(** When the compiler's [addType] and the resolver's [add] return, [add]
    returns the facade, with the compiler and the resolver as they left
    them and nothing else changed. *)
Lemma add_registers (type field returns handler params : Value) (w : World)
    (c : Compiler CompilerState) (r : Resolver ResolverState) :
  Compiler_addType type field returns (defaultTo (VObject []) params)
                   (compiler (facade w)) = (Normal tt, c) ->
  Resolver_add type field handler (resolver (facade w)) = (Normal tt, r) ->
  add type field returns handler params w
  = (Normal This,
     mkWorld (mkDB2Graphql (connection (facade w)) (dbSchema (facade w))
                           (gqlSchema (facade w)) c r (dbDriver (facade w)))
             (trace w)).
Proof.
  intros Hc Hr.
  unfold add, bind, ret, onCompiler, onResolver, zoom. simpl.
  rewrite Hc. simpl. rewrite Hr. reflexivity.
Qed.

(** Written out: for names without dots and without white space around
    them, [addField("Type.field", ...)] is [add("Type", "field", ...)], and
    with more names in front, the last two count. *)
Lemma addField_dotted (names : list jsstring) (type field : jsstring)
    (returns handler params : Value) (w : World) :
  Forall (fun s => s <> [] /\ ~ In JSString.dot s) (names ++ [type; field]) ->
  JSString.trim (joinDots (names ++ [type; field])) = joinDots (names ++ [type; field]) ->
  addField (joinDots (names ++ [type; field])) returns handler params w
  = add (VString type) (VString field) returns handler params w.
Proof.
  intros Hnames Htrim.
  apply addField_on_segments with (pre := names).
  apply segmentsOf_joinDots; [|exact Hnames|exact Htrim].
  now destruct names.
Qed.

(** C2. A path with fewer than two non-empty segments between its dots,
    counted on the path as it is given or, as [addField] and [addInput] do,
    on the trimmed path, makes both methods throw their Error at once: the
    call completes by throwing, and the facade, its compiler and resolver
    and the database are as they were before the call. *)
Theorem short_path_throws (path : jsstring)
    (returns handler params subType : Value) (w : World) :
  (nonEmptyPieces (JSString.split JSString.dot path) < 2)%nat
  \/ (List.length (segmentsOf path) < 2)%nat ->
  addField path returns handler params w
    = (Throw (Error "addField path must be in format Type.field"), w)
  /\ addInput path subType w
    = (Throw (Error "addInput path must be in format Input.field"), w).
Proof.
  intros Hshort.
  assert (Hsegments : (List.length (segmentsOf path) <? 2)%nat = true).
  { apply Nat.ltb_lt. destruct Hshort as [Hraw|Htrimmed]; [|exact Htrimmed].
    now apply segmentsOf_short. }
  unfold addField, addInput. now rewrite Hsegments.
Qed.

(** C8. For a path [Type.field], two non-empty segments, [addField] does
    what [add(Type, field, returns, resolver, params)] does; when the
    compiler's [addType] and the resolver's [add] return, the field is in
    the compiler as [addType] left it, the resolver in the resolver as
    [add] left it, nothing else has changed, and the facade itself is
    returned. *)
Theorem addField_is_add (path type field : jsstring)
    (returns handler params : Value) (w : World) :
  segmentsOf path = [type; field] ->
  addField path returns handler params w
    = add (VString type) (VString field) returns handler params w
  /\ forall c r,
      Compiler_addType (VString type) (VString field) returns
                       (defaultTo (VObject []) params) (compiler (facade w))
        = (Normal tt, c) ->
      Resolver_add (VString type) (VString field) handler (resolver (facade w))
        = (Normal tt, r) ->
      addField path returns handler params w
        = (Normal This,
           mkWorld (mkDB2Graphql (connection (facade w)) (dbSchema (facade w))
                                 (gqlSchema (facade w)) c r (dbDriver (facade w)))
                   (trace w)).
Proof.
  intros Hseg.
  assert (Hadd := @addField_on_segments path [] type field returns handler params w Hseg).
  split; [exact Hadd|].
  intros c r Hc Hr. rewrite Hadd. now apply add_registers.
Qed.


End Paths.

Section SchemaBuilder.

Context `{Required}.

Lemma db_schema_outcome (db : Knex) (rq : SchemaRequest) (w : World) :
  tryCatch (await (db_schema (Some db) rq) ;;; ret (VBool true))
           (fun _ => ret (VBool false)) w
  = (Normal (VBool (succeeded (Knex_schema db rq (trace w)))),
     mkWorld (facade w) (trace w ++ [SchemaRequested rq])).
Proof.
  unfold tryCatch, await, bind, db_schema, async, request, ret, throw. simpl.
  now destruct (Knex_schema db rq (trace w)).
Qed.

Lemma bind_normal {S A B} (m : M S A) (k : A -> M S B) (s s' : S) (a : A) :
  m s = (Normal a, s') -> bind m k s = k a s'.
Proof. intros Hm. unfold bind. now rewrite Hm. Qed.

Lemma availableTypes_of_adapter (ioc : IOC) (kind : DriverKind) (w : World) :
  r_dbDriver (ioc_resolver ioc) = Some (Adapter kind) ->
  availableTypes (ioc_resolver ioc) w = (Normal (Adapter_getAvailableTypes kind), w).
Proof. intros Hd. unfold availableTypes. now rewrite Hd. Qed.

(** C7. Each of the four schema-builder resolvers of [withBuilder]
    answers [false] when the database driver raises an error and [true]
    when the driver operation succeeds, and never rejects for it;
    [addSchemaColumn] and [addSchemaTable] answer [false] without a
    request to the driver when the column type is not among the types the
    driver offers. *)
Theorem schema_builders_are_benign (fn : Closure) (root : Value) (args : Args)
    (ioc : IOC) (w : World) :
  In fn schemaBuilders ->
  exists m rq,
    call fn root args ioc = Some m
    /\ requestOf fn args = Some rq
    /\ (forall db,
          ioc_db ioc = Some db ->
          (checksType fn = true -> typeOffered args ioc = true) ->
          m w = (Normal (Fulfilled (VBool (succeeded (Knex_schema db rq (trace w))))),
                 mkWorld (facade w) (trace w ++ [SchemaRequested rq])))
    /\ (forall kind,
          checksType fn = true ->
          r_dbDriver (ioc_resolver ioc) = Some (Adapter kind) ->
          notListed (arg args "type") (Adapter_getAvailableTypes kind) = true ->
          m w = (Normal (Fulfilled (VBool false)), w)).
Proof.
  intros Hin. simpl in Hin.
  destruct Hin as [<-|[<-|[<-|[<-|[]]]]]; simpl;
    eexists; eexists; (split; [reflexivity|]); (split; [reflexivity|]); split.
  - intros db Hdb Hoffer. specialize (Hoffer eq_refl).
    unfold typeOffered in Hoffer.
    destruct (r_dbDriver (ioc_resolver ioc)) as [[kind|]|] eqn:Hd; try discriminate.
    unfold addSchemaColumn, async.
    rewrite (bind_normal _ _ _ (availableTypes_of_adapter _ w Hd)).
    apply negb_true_iff in Hoffer. rewrite Hoffer, Hdb.
    now rewrite db_schema_outcome.
  - intros kind _ Hd Hno.
    unfold addSchemaColumn, async.
    rewrite (bind_normal _ _ _ (availableTypes_of_adapter _ w Hd)). now rewrite Hno.
  - intros db Hdb _.
    unfold dropSchemaColumn, async. rewrite Hdb. now rewrite db_schema_outcome.
  - intros kind Hc. discriminate.
  - intros db Hdb Hoffer. specialize (Hoffer eq_refl).
    unfold typeOffered in Hoffer.
    destruct (r_dbDriver (ioc_resolver ioc)) as [[kind|]|] eqn:Hd; try discriminate.
    unfold addSchemaTable, async.
    rewrite (bind_normal _ _ _ (availableTypes_of_adapter _ w Hd)).
    apply negb_true_iff in Hoffer. rewrite Hoffer, Hdb.
    now rewrite db_schema_outcome.
  - intros kind _ Hd Hno.
    unfold addSchemaTable, async.
    rewrite (bind_normal _ _ _ (availableTypes_of_adapter _ w Hd)). now rewrite Hno.
  - intros db Hdb _.
    unfold dropSchemaTable, async. rewrite Hdb. now rewrite db_schema_outcome.
  - intros kind Hc. discriminate.
Qed.

End SchemaBuilder.

Section Connect.

Context `{Required}.

Lemma eqb_eq (a b : jsstring) : JSString.eqb a b = true <-> a = b.
Proof.
  unfold JSString.eqb. destruct (list_eq_dec N.eq_dec a b); split; congruence.
Qed.

Lemma lookupDriver_missing (key : jsstring) :
  lookupDriver key = Missing <-> ~ In key knownKeys.
Proof.
  unfold lookupDriver, knownKeys.
  destruct (JSString.eqb key (js "pg")) eqn:Hpg.
  { apply eqb_eq in Hpg. split; [discriminate|]. intros Hn. exfalso. apply Hn. now left. }
  destruct (JSString.eqb key (js "mysql")) eqn:Hmy.
  { apply eqb_eq in Hmy. split; [discriminate|].
    intros Hn. exfalso. apply Hn. right. now left. }
  destruct (existsb (JSString.eqb key) objectPrototypeKeys) eqn:Hproto.
  - split; [discriminate|]. intros Hn. exfalso. apply Hn.
    apply existsb_exists in Hproto. destruct Hproto as [k [Hk Heq]].
    apply eqb_eq in Heq. subst k. now do 2 right.
  - split; [|reflexivity]. intros _ [Hk|[Hk|Hk]].
    + subst key. unfold JSString.eqb in Hpg.
      destruct (list_eq_dec N.eq_dec (js "pg") (js "pg")); congruence.
    + subst key. unfold JSString.eqb in Hmy.
      destruct (list_eq_dec N.eq_dec (js "mysql") (js "mysql")); congruence.
    + assert (existsb (JSString.eqb key) objectPrototypeKeys = true); [|congruence].
      apply existsb_exists. exists key. split; [exact Hk|now apply eqb_eq].
Qed.

Lemma connect_without_connection (namespace : Value) (w : World) :
  connection (facade w) = None ->
  connect namespace w = (Normal (Rejected (Error "Invalid Knex instance")), w).
Proof.
  intros Hnone. unfold connect, async, bind, this. simpl. now rewrite Hnone.
Qed.

Lemma connect_without_driver (namespace : Value) (w : World) (knex : Knex) :
  connection (facade w) = Some knex ->
  lookupDriver (client (config knex)) = Missing ->
  connect namespace w = (Normal (Rejected (Error "Database driver not available")), w).
Proof.
  intros Hsome Hkey. unfold connect, async, bind, this. simpl.
  now rewrite Hsome, Hkey.
Qed.

(** C3, as the code has it. [connect] is an [async] function: with no
    connection, or with a driver key under which the drivers object holds
    nothing (neither [pg] nor [mysql] nor a name inherited from
    [Object.prototype]), the promise it returns is rejected with the error
    before anything is awaited, and the facade, whose [dbSchema] and
    [dbDriver] are part of it, and the database are untouched: no
    introspection is attempted. *)
Theorem connect_rejects_at_once (namespace : Value) (w : World) :
  (connection (facade w) = None ->
   connect namespace w = (Normal (Rejected (Error "Invalid Knex instance")), w))
  /\ (forall knex,
        connection (facade w) = Some knex ->
        ~ In (client (config knex)) knownKeys ->
        connect namespace w
        = (Normal (Rejected (Error "Database driver not available")), w)).
Proof.
  split.
  - apply connect_without_connection.
  - intros knex Hsome Hkey. apply lookupDriver_missing in Hkey.
    now apply connect_without_driver with (knex := knex).
Qed.

(** [connect] never throws to its caller: what goes wrong in it rejects
    the promise. *)
Lemma connect_returns_a_promise (namespace : Value) (w : World) :
  exists p w', connect namespace w = (Normal p, w').
Proof.
  unfold connect, async.
  match goal with |- context [match ?body w with _ => _ end] => destruct (body w) as [[a|e] w'] end;
    eauto.
Qed.

End Connect.

(** Against C3 as worded: with no connection, [connect] does not fail
    synchronously, the error comes as the rejection of a promise; and with
    the driver key [constructor], which is neither [pg] nor [mysql],
    [dbDriver] is no longer what it was when the promise is rejected. *)
Lemma connect_fails_otherwise :
  (connection (facade emptyWorld) = None
   /\ ~ throwsSynchronously VUndefined emptyWorld)
  /\ (exists knex,
        connection (facade oddWorld) = Some knex
        /\ ~ In (client (config knex)) [js "pg"; js "mysql"]
        /\ dbDriver (facade (after (connect VUndefined) oddWorld))
           <> dbDriver (facade oddWorld)).
Proof.
  split.
  - split; [reflexivity|]. intros [e He]. discriminate He.
  - exists (mkKnex (mkKnexConfig (js "constructor") VUndefined VUndefined)).
    split; [reflexivity|]. split.
    + intros [Hpg|[Hmysql|[]]]; discriminate.
    + discriminate.
Qed.

Lemma connect_rejects_at_once_witness :
  connect VUndefined emptyWorld
    = (Normal (Rejected (Error "Invalid Knex instance")), emptyWorld)
  /\ connect VUndefined sqliteWorld
    = (Normal (Rejected (Error "Database driver not available")), sqliteWorld).
Proof.
  destruct (@connect_rejects_at_once exampleDatabase VUndefined emptyWorld) as [Hnone _].
  destruct (@connect_rejects_at_once exampleDatabase VUndefined sqliteWorld) as [_ Hkey].
  split.
  - apply Hnone. reflexivity.
  - apply (Hkey (mkKnex (mkKnexConfig (js "sqlite3") VUndefined VUndefined))).
    + reflexivity.
    + apply lookupDriver_missing. vm_compute. reflexivity.
Defined.

(** A key that the drivers object only inherits gets past the check of
    [connect]: with [constructor], [dbDriver] is the connection itself by
    the time the promise is rejected. *)
Lemma connect_with_inherited_key :
  fst (connect VUndefined oddWorld)
    = Normal (Rejected (TypeError "this.dbDriver.getSchema is not a function"))
  /\ dbDriver (facade oddWorld) = None
  /\ dbDriver (facade (snd (connect VUndefined oddWorld))) = Some TheConnection.
Proof. vm_compute. repeat split. Qed.

(** ** What a call leaves alone *)

Section Frame.

Context `{Required}.

Variable R : World -> World -> Prop.
Hypothesis R_refl : forall w, R w w.
Hypothesis R_trans : forall w1 w2 w3, R w1 w2 -> R w2 w3 -> R w1 w3.

Lemma preserves_ret {A} (a : A) : preserves R (ret a).
Proof. intros w. apply R_refl. Qed.

Lemma preserves_throw {A} (e : JSError) : preserves R (@throw World A e).
Proof. intros w. apply R_refl. Qed.

Lemma preserves_this : preserves R this.
Proof. intros w. apply R_refl. Qed.

Lemma preserves_bind {A B} (m : JS A) (k : A -> JS B) :
  preserves R m -> (forall a, preserves R (k a)) -> preserves R (bind m k).
Proof.
  intros Hm Hk w. unfold bind. specialize (Hm w).
  destruct (m w) as [[a|e] w1]; simpl in *; [|exact Hm].
  eapply R_trans; [exact Hm|apply Hk].
Qed.

Lemma preserves_tryCatch {A} (body : JS A) (handler : JSError -> JS A) :
  preserves R body -> (forall e, preserves R (handler e)) ->
  preserves R (tryCatch body handler).
Proof.
  intros Hb Hh w. unfold tryCatch. specialize (Hb w).
  destruct (body w) as [[a|e] w1]; simpl in *; [exact Hb|].
  eapply R_trans; [exact Hb|apply Hh].
Qed.

Lemma preserves_async {A} (body : JS A) :
  preserves R body -> preserves R (async body).
Proof.
  intros Hb w. unfold async. specialize (Hb w).
  now destruct (body w) as [[a|e] w1].
Qed.

Lemma preserves_await {A} (p : JS (Promise A)) :
  preserves R p -> preserves R (await p).
Proof.
  intros Hp. unfold await. apply preserves_bind; [exact Hp|].
  intros [a|e]; [apply preserves_ret|apply preserves_throw].
Qed.

Lemma preserves_assign (upd : DB2Graphql -> DB2Graphql) :
  (forall w, R w (set_facade (upd (facade w)) w)) -> preserves R (assign upd).
Proof. intros Hupd w. apply Hupd. Qed.

(** The writes the facade makes, one hypothesis for each kind. *)
Hypothesis R_compiler : forall w c, R w (set_facade (set_compiler c (facade w)) w).
Hypothesis R_trace : forall w t, R w (mkWorld (facade w) t).

(** What may become of the resolver, and the methods of the resolver that
    stay within it. *)
Variable Q : Resolver ResolverState -> Resolver ResolverState -> Prop.
Hypothesis R_resolver :
  forall w r, Q (resolver (facade w)) r -> R w (set_facade (set_resolver r (facade w)) w).
Hypothesis Q_add : forall type field handler r, Q r (snd (Resolver_add type field handler r)).
Hypothesis Q_getResolvers : forall flag r, Q r (snd (Resolver_getResolvers flag r)).
Hypothesis Q_dbDriver : forall d r, Q r (set_r_dbDriver d r).

Lemma preserves_onCompiler {A} (m : M (Compiler CompilerState) A) :
  preserves R (onCompiler m).
Proof.
  intros w. unfold onCompiler, zoom.
  destruct (m (compiler (facade w))) as [r c]. apply R_compiler.
Qed.

Lemma preserves_onResolver {A} (m : M (Resolver ResolverState) A) :
  (forall r, Q r (snd (m r))) -> preserves R (onResolver m).
Proof.
  intros Hm w. unfold onResolver, zoom. specialize (Hm (resolver (facade w))).
  destruct (m (resolver (facade w))) as [a r]. now apply R_resolver.
Qed.

Lemma preserves_request {A} (ev : Event) (answer : list Event -> Completion A) :
  preserves R (request ev answer).
Proof. intros w. apply R_trace. Qed.

Ltac frame :=
  repeat match goal with
    | |- preserves _ (bind _ _) => apply preserves_bind; [|intro]
    | |- preserves _ (ret _) => apply preserves_ret
    | |- preserves _ (throw _) => apply preserves_throw
    | |- preserves _ this => apply preserves_this
    | |- preserves _ (async _) => apply preserves_async
    | |- preserves _ (await _) => apply preserves_await
    | |- preserves _ (tryCatch _ _) => apply preserves_tryCatch; [|intro]
    | |- preserves _ (onCompiler _) => apply preserves_onCompiler
    | |- preserves _ (onResolver _) =>
        apply preserves_onResolver; intro;
        first [apply Q_add | apply Q_getResolvers]
    | |- preserves _ (request _ _) => apply preserves_request
    | |- preserves _ (assign _) =>
        apply preserves_assign; intro; cbv beta;
        try solve [apply R_compiler | apply R_resolver; apply Q_dbDriver]
    | |- preserves _ (match ?x with _ => _ end) => destruct x
    end.

Lemma preserves_add (type field returns handler params : Value) :
  preserves R (add type field returns handler params).
Proof. unfold add. frame. Qed.

Lemma preserves_addField (path : jsstring) (returns handler params : Value) :
  preserves R (addField path returns handler params).
Proof. unfold addField. frame; apply preserves_add. Qed.

Lemma preserves_addInput (path : jsstring) (subType : Value) :
  preserves R (addInput path subType).
Proof. unfold addInput. frame. Qed.

(** [onBefore] writes the hook of the resolver. *)
Lemma preserves_onBefore (v r : Value) :
  (forall h r, Q r (set_beforeHook h r)) -> preserves R (onBefore v r).
Proof. intros Hhook. unfold onBefore. frame; apply R_resolver, Hhook. Qed.

Lemma preserves_getResolvers : preserves R getResolvers.
Proof. unfold getResolvers. frame. Qed.

Lemma preserves_withBuilder : preserves R withBuilder.
Proof. unfold withBuilder. frame; apply preserves_add. Qed.

Lemma preserves_call (fn : Closure) (root : Value) (args : Args) (ioc : IOC)
    (m : JS (Promise Value)) :
  call fn root args ioc = Some m -> preserves R m.
Proof.
  destruct fn; simpl; intros Hm; inversion Hm; subst; clear Hm.
  - frame.
  - unfold addSchemaColumn, availableTypes, db_schema. frame.
  - unfold dropSchemaColumn, db_schema. frame.
  - unfold addSchemaTable, availableTypes, db_schema. frame.
  - unfold dropSchemaTable, db_schema. frame.
Qed.

(** [connect] also writes [connection] (the configuration it completes),
    [dbDriver] and [dbSchema]. *)
Hypothesis R_connection : forall w k, R w (set_facade (set_connection k (facade w)) w).
Hypothesis R_dbDriver : forall w d, R w (set_facade (set_dbDriver d (facade w)) w).
Hypothesis R_dbSchema : forall w v, R w (set_facade (set_dbSchema v (facade w)) w).

(** [getSchema] writes [gqlSchema]. *)
Lemma preserves_getSchema (refresh : Value) :
  (forall w v, R w (set_facade (set_gqlSchema v (facade w)) w)) ->
  preserves R (getSchema refresh).
Proof. intros Htext. unfold getSchema. frame. apply Htext. Qed.

Lemma preserves_connect (namespace : Value) : preserves R (connect namespace).
Proof.
  unfold connect, construct_driver, driver_getSchema.
  frame; first [apply R_connection | apply R_dbDriver | apply R_dbSchema].
Qed.

Lemma preserves_getDatabaseSchema (refresh : Value) :
  preserves R (getDatabaseSchema refresh).
Proof. unfold getDatabaseSchema. frame. apply preserves_connect. Qed.

End Frame.

(** ** The before-hook *)

Section Hooks.

Context `{Required}.

Lemma onBefore_returns (v r : Value) (w : World) :
  fst (onBefore v r w) = Normal tt.
Proof.
  unfold onBefore, bind, assign, modify, ret. simpl. now destruct (truthy r).
Qed.

(** What [onBefore] leaves behind, slot by slot. *)
Lemma onBefore_hook (v r : Value) (w : World) :
  hookOf (after (onBefore v r) w)
  = mkBeforeHook v (if truthy r then r else rejected (hookOf w)).
Proof.
  unfold after, onBefore, bind, assign, modify, ret, hookOf. simpl.
  now destruct (truthy r).
Qed.

Lemma sameHook_refl (w : World) : sameHook w w.
Proof. reflexivity. Qed.

Lemma sameHook_trans (w1 w2 w3 : World) :
  sameHook w1 w2 -> sameHook w2 w3 -> sameHook w1 w3.
Proof. unfold sameHook. congruence. Qed.

(** No method of the facade but [onBefore] writes the hook: as long as the
    resolver's own [add] and [getResolvers] leave it alone, a call that is
    not [onBefore] does. *)
Lemma perform_keeps_hook (c : Call) (w : World) :
  (forall type field handler r,
      beforeHook (snd (Resolver_add type field handler r)) = beforeHook r) ->
  (forall flag r, beforeHook (snd (Resolver_getResolvers flag r)) = beforeHook r) ->
  (forall v r, c <> DoOnBefore v r) ->
  sameHook w (perform c w).
Proof.
  intros Hadd Hget Hc.
  pose proof sameHook_refl as Hrefl.
  pose proof sameHook_trans as Htrans.
  set (Q := fun r r' : Resolver ResolverState => beforeHook r' = beforeHook r).
  assert (HR : forall w r, Q (resolver (facade w)) r ->
                           sameHook w (set_facade (set_resolver r (facade w)) w))
    by (intros w0 r Hq; exact Hq).
  destruct c; simpl; unfold after.
  - apply preserves_add with (R := sameHook) (Q := Q); easy.
  - apply preserves_addField with (R := sameHook) (Q := Q); easy.
  - apply preserves_addInput with (R := sameHook); easy.
  - exfalso. eapply Hc. reflexivity.
  - apply preserves_connect with (R := sameHook) (Q := Q); easy.
  - apply preserves_getDatabaseSchema with (R := sameHook) (Q := Q); easy.
  - apply preserves_getResolvers with (R := sameHook) (Q := Q); easy.
  - apply preserves_getSchema with (R := sameHook); easy.
  - apply preserves_withBuilder with (R := sameHook) (Q := Q); easy.
  - destruct (call fn root args ioc) as [m|] eqn:Hm; [|reflexivity].
    eapply preserves_call with (R := sameHook); [exact Hrefl|exact Htrans| |exact Hm].
    intros; reflexivity.
Qed.

(** C6. The before-hook is one pair of slots in the resolver of the
    facade; of the methods of the facade only [onBefore] writes it; and the
    last [onBefore] wins: after [onBefore(v1, r1)] and, whatever happens to
    the facade in between, [onBefore(v2, r2)] with a callback [r2], the hook
    holds exactly [v2] and [r2]. *)
Theorem onBefore_last_writer_wins (v1 r1 v2 r2 : Value)
    (between : World -> World) (w : World) :
  truthy r2 = true ->
  hookOf (after (onBefore v2 r2) (between (after (onBefore v1 r1) w)))
  = mkBeforeHook v2 r2
  /\ forall c : Call,
       (forall type field handler r,
           beforeHook (snd (Resolver_add type field handler r)) = beforeHook r) ->
       (forall flag r, beforeHook (snd (Resolver_getResolvers flag r)) = beforeHook r) ->
       (forall v r, c <> DoOnBefore v r) ->
       hookOf (perform c w) = hookOf w.
Proof.
  intros Hr2. split.
  - now rewrite onBefore_hook, Hr2.
  - intros c Hadd Hget Hc. now apply perform_keeps_hook.
Qed.

(** C10. [onBefore(validator)] with the second argument missing or falsy
    replaces the validator and nothing else: the rejected callback, the
    rest of the resolver, the rest of the facade and the database stay as
    they were. *)
Theorem onBefore_keeps_rejected (v r : Value) (w : World) :
  truthy r = false ->
  onBefore v r w
  = (Normal tt,
     mkWorld (mkDB2Graphql (connection (facade w)) (dbSchema (facade w))
                (gqlSchema (facade w)) (compiler (facade w))
                (mkResolver (mkBeforeHook v (rejected (hookOf w)))
                            (r_dbDriver (resolver (facade w)))
                            (r_state (resolver (facade w))))
                (dbDriver (facade w)))
             (trace w)).
Proof.
  intros Hr. unfold onBefore, bind, assign, modify, ret. simpl.
  now rewrite Hr.
Qed.

End Hooks.

(** ** The rendered schema *)

Section SchemaText.

Context `{Required}.

Lemma sameSchemaText_refl (w : World) : sameSchemaText w w.
Proof. reflexivity. Qed.

Lemma sameSchemaText_trans (w1 w2 w3 : World) :
  sameSchemaText w1 w2 -> sameSchemaText w2 w3 -> sameSchemaText w1 w3.
Proof. unfold sameSchemaText. congruence. Qed.

(** [getSchema] leaves in [gqlSchema] what it returns. *)
Lemma getSchema_stores (refresh : Value) (w w1 : World) (text : Value) :
  getSchema refresh w = (Normal text, w1) -> gqlSchema (facade w1) = text.
Proof.
  unfold getSchema, bind, this, assign, modify, ret. simpl.
  destruct (negb (truthy (gqlSchema (facade w))) || truthy (defaultTo (VBool false) refresh)).
  - destruct (onCompiler _ w) as [[sdl|e] w']; simpl; intros Heq; inversion Heq; reflexivity.
  - intros Heq. inversion Heq. reflexivity.
Qed.

(** With a text in [gqlSchema] and no [refresh], [getSchema] returns that
    text and touches nothing: the compiler is not asked. *)
Lemma getSchema_hit (refresh : Value) (w : World) :
  truthy (gqlSchema (facade w)) = true ->
  truthy (defaultTo (VBool false) refresh) = false ->
  getSchema refresh w = (Normal (gqlSchema (facade w)), w).
Proof.
  intros Hcached Hrefresh.
  unfold getSchema, bind, this, ret. simpl. now rewrite Hcached, Hrefresh.
Qed.

(** Without a text in [gqlSchema], or with [refresh], [getSchema] returns
    what the compiler renders now. *)
Lemma getSchema_miss (refresh : Value) (w : World) :
  truthy (gqlSchema (facade w)) = false
  \/ truthy (defaultTo (VBool false) refresh) = true ->
  getSchema refresh w
  = (sdl <- onCompiler (Compiler_getSDL (defaultTo (VBool false) refresh)
                                        (VBool (hasConnection (facade w)))) ;;
     assign (set_gqlSchema sdl) ;;;
     ret sdl) w.
Proof.
  intros Hmiss.
  assert (Hcond : negb (truthy (gqlSchema (facade w)))
                  || truthy (defaultTo (VBool false) refresh) = true).
  { destruct Hmiss as [-> | ->]; [reflexivity|apply orb_true_r]. }
  unfold getSchema, bind, this, assign, modify, ret. simpl. rewrite Hcond.
  now destruct (onCompiler _ w) as [[sdl|e] w'].
Qed.

Lemma perform_keeps_text (c : Call) (w : World) :
  truthy (gqlSchema (facade w)) = true ->
  refreshes c = false ->
  sameSchemaText w (perform c w).
Proof.
  intros Hcached Hc.
  pose proof sameSchemaText_refl as Hrefl.
  pose proof sameSchemaText_trans as Htrans.
  destruct c; simpl; unfold after.
  - apply preserves_add with (R := sameSchemaText) (Q := fun _ _ => True); easy.
  - apply preserves_addField with (R := sameSchemaText) (Q := fun _ _ => True); easy.
  - apply preserves_addInput with (R := sameSchemaText); easy.
  - apply preserves_onBefore with (R := sameSchemaText) (Q := fun _ _ => True); easy.
  - apply preserves_connect with (R := sameSchemaText) (Q := fun _ _ => True); easy.
  - apply preserves_getDatabaseSchema with (R := sameSchemaText) (Q := fun _ _ => True); easy.
  - apply preserves_getResolvers with (R := sameSchemaText) (Q := fun _ _ => True); easy.
  - simpl in Hc. now rewrite getSchema_hit.
  - apply preserves_withBuilder with (R := sameSchemaText) (Q := fun _ _ => True); easy.
  - destruct (call fn root args ioc) as [m|] eqn:Hm; [|reflexivity].
    eapply preserves_call with (R := sameSchemaText); [exact Hrefl|exact Htrans| |exact Hm].
    intros; reflexivity.
Qed.

Lemma performAll_keeps_text (calls : list Call) (w : World) :
  truthy (gqlSchema (facade w)) = true ->
  forallb (fun c => negb (refreshes c)) calls = true ->
  sameSchemaText w (performAll calls w).
Proof.
  revert w. induction calls as [|c calls IH]; intros w Hcached Hcalls.
  - reflexivity.
  - simpl in Hcalls. apply andb_true_iff in Hcalls. destruct Hcalls as [Hc Hcalls].
    apply negb_true_iff in Hc.
    pose proof (perform_keeps_text c w Hcached Hc) as Hstep.
    simpl. eapply sameSchemaText_trans; [exact Hstep|].
    apply IH; [|exact Hcalls].
    unfold sameSchemaText in Hstep. now rewrite Hstep.
Qed.

(** C4, as the code has it. [getSchema] keeps the text it rendered in
    [gqlSchema], and two things only decide whether it renders: whether the
    text it holds is truthy, and [refresh]. Without a truthy text, or with
    [refresh], it always asks the compiler, and returns and keeps what the
    compiler renders now (or throws what the compiler throws). With a
    truthy text and no [refresh] it returns that text and leaves the facade,
    the compiler and the database as they are. So once a call has returned
    a truthy text, every later call without [refresh] returns that same
    text without rendering, whatever was done with the facade in between
    short of a [getSchema] with [refresh]: a change of the registry does not
    bring a fresh rendering. *)
Theorem getSchema_is_cached (refresh : Value) (w : World) :
  (truthy (gqlSchema (facade w)) = false
   \/ truthy (defaultTo (VBool false) refresh) = true ->
   getSchema refresh w
   = match Compiler_getSDL (defaultTo (VBool false) refresh)
                           (VBool (hasConnection (facade w))) (compiler (facade w)) with
     | (Normal sdl, c) =>
         (Normal sdl,
          mkWorld (mkDB2Graphql (connection (facade w)) (dbSchema (facade w)) sdl c
                                (resolver (facade w)) (dbDriver (facade w)))
                  (trace w))
     | (Throw e, c) =>
         (Throw e,
          mkWorld (mkDB2Graphql (connection (facade w)) (dbSchema (facade w))
                                (gqlSchema (facade w)) c
                                (resolver (facade w)) (dbDriver (facade w)))
                  (trace w))
     end)
  /\ (truthy (gqlSchema (facade w)) = true ->
      truthy (defaultTo (VBool false) refresh) = false ->
      getSchema refresh w = (Normal (gqlSchema (facade w)), w))
  /\ (forall (text : Value) (w1 : World) (calls : list Call) (again : Value),
        getSchema refresh w = (Normal text, w1) ->
        truthy text = true ->
        forallb (fun c => negb (refreshes c)) calls = true ->
        truthy (defaultTo (VBool false) again) = false ->
        getSchema again (performAll calls w1) = (Normal text, performAll calls w1)).
Proof.
  split; [|split].
  - intros Hmiss. rewrite (getSchema_miss refresh w Hmiss).
    cbv [bind onCompiler zoom assign modify ret].
    now destruct (Compiler_getSDL (defaultTo (VBool false) refresh)
                    (VBool (hasConnection (facade w))) (compiler (facade w)))
      as [[sdl|e] c].
  - apply getSchema_hit.
  - intros text w1 calls again Hfirst Htext Hcalls Hagain.
    apply getSchema_stores in Hfirst.
    assert (Hcached : truthy (gqlSchema (facade w1)) = true) by now rewrite Hfirst.
    pose proof (performAll_keeps_text calls w1 Hcached Hcalls) as Hsame.
    unfold sameSchemaText in Hsame.
    rewrite getSchema_hit; [now rewrite Hsame, Hfirst| |exact Hagain].
    now rewrite Hsame.
Qed.

End SchemaText.

(** ** A facade without connection *)

Section WithoutConnection.

Context `{Required}.

Lemma sameFront_refl (w : World) : sameFront w w.
Proof. split; reflexivity. Qed.

Lemma sameFront_trans (w1 w2 w3 : World) :
  sameFront w1 w2 -> sameFront w2 w3 -> sameFront w1 w3.
Proof. unfold sameFront. intros [] []. split; congruence. Qed.

(** Without a connection [getDatabaseSchema] changes nothing either: the
    [connect] it awaits is rejected at once. *)
Lemma getDatabaseSchema_without_connection (refresh : Value) (w : World) :
  connection (facade w) = None ->
  snd (getDatabaseSchema refresh w) = w.
Proof.
  intros Hnone. unfold getDatabaseSchema, async, bind, this, await, ret. simpl.
  destruct (negb (truthy (dbSchema (facade w)))
            || truthy (defaultTo (VBool false) refresh)); [|reflexivity].
  unfold bind. now rewrite (connect_without_connection VUndefined w Hnone).
Qed.

(** One call on a facade without connection: there is no connection
    afterwards, and the text the facade holds is the one it held, unless
    the call was a [getSchema] that had the compiler render, with
    [hasConnection] false. *)
Lemma perform_without_connection (c : Call) (w : World) :
  connection (facade w) = None ->
  connection (facade (perform c w)) = None
  /\ (gqlSchema (facade (perform c w)) = gqlSchema (facade w)
      \/ exists refresh,
           c = DoGetSchema refresh
           /\ perform c w
              = after (sdl <- onCompiler (Compiler_getSDL (defaultTo (VBool false) refresh)
                                                          (VBool false)) ;;
                       assign (set_gqlSchema sdl) ;;;
                       ret sdl) w).
Proof.
  intros Hnone.
  pose proof sameFront_refl as Hrefl.
  pose proof sameFront_trans as Htrans.
  assert (Hframe : sameFront w (perform c w) ->
                   connection (facade (perform c w)) = None
                   /\ (gqlSchema (facade (perform c w)) = gqlSchema (facade w) \/
                       exists refresh,
                         c = DoGetSchema refresh
                         /\ perform c w
                            = after (sdl <- onCompiler
                                       (Compiler_getSDL (defaultTo (VBool false) refresh)
                                                        (VBool false)) ;;
                                     assign (set_gqlSchema sdl) ;;;
                                     ret sdl) w)).
  { intros [Hconn Htext]. split; [congruence|now left]. }
  destruct c.
  - apply Hframe. simpl. unfold after.
    apply preserves_add with (R := sameFront) (Q := fun _ _ => True); easy.
  - apply Hframe. simpl. unfold after.
    apply preserves_addField with (R := sameFront) (Q := fun _ _ => True); easy.
  - apply Hframe. simpl. unfold after.
    apply preserves_addInput with (R := sameFront); easy.
  - apply Hframe. simpl. unfold after.
    apply preserves_onBefore with (R := sameFront) (Q := fun _ _ => True); easy.
  - apply Hframe. simpl. unfold after.
    rewrite (connect_without_connection namespace w Hnone). apply sameFront_refl.
  - apply Hframe. simpl. unfold after.
    rewrite (getDatabaseSchema_without_connection refresh w Hnone).
    apply sameFront_refl.
  - apply Hframe. simpl. unfold after.
    apply preserves_getResolvers with (R := sameFront) (Q := fun _ _ => True); easy.
  - clear Hframe. simpl. unfold after.
    destruct (truthy (gqlSchema (facade w))) eqn:Hcached;
      [destruct (truthy (defaultTo (VBool false) refresh)) eqn:Hrefresh|].
    + rewrite getSchema_miss by now right.
      unfold hasConnection. rewrite Hnone. split.
      * unfold bind, onCompiler, zoom, assign, modify, ret.
        destruct (Compiler_getSDL _ _ _) as [[sdl|e] c']; exact Hnone.
      * right. now exists refresh.
    + rewrite getSchema_hit by assumption. split; [exact Hnone|now left].
    + rewrite getSchema_miss by now left.
      unfold hasConnection. rewrite Hnone. split.
      * unfold bind, onCompiler, zoom, assign, modify, ret.
        destruct (Compiler_getSDL _ _ _) as [[sdl|e] c']; exact Hnone.
      * right. now exists refresh.
  - apply Hframe. simpl. unfold after.
    apply preserves_withBuilder with (R := sameFront) (Q := fun _ _ => True); easy.
  - apply Hframe. simpl.
    destruct (call fn root args ioc) as [m|] eqn:Hm; [|apply sameFront_refl].
    unfold after.
    eapply preserves_call with (R := sameFront); [exact Hrefl|exact Htrans| |exact Hm].
    intros; split; reflexivity.
Qed.

End WithoutConnection.

Section WithoutConnectionSpec.

Variable derive : Value -> list Spec.Derived.
Variable introspect : DriverKind -> Knex -> Value -> Value -> list Event -> Completion Value.
Variable columnTypes : DriverKind -> list jsstring.
Variable knex_schema : Knex -> SchemaRequest -> list Event -> Completion unit.
Variable stringify : Value -> Value.

Let env : Required := Spec.model derive introspect columnTypes knex_schema stringify.
Local Existing Instance env.

Lemma getSDL_without_connection (refresh : Value) (c : Compiler Spec.Registries) :
  Compiler_getSDL refresh (VBool false) c = (Normal (manualText (c_state c)), c).
Proof. reflexivity. Qed.

Lemma render_without_connection (refresh : Value) (w : World) :
  (sdl <- onCompiler (Compiler_getSDL refresh (VBool false)) ;;
   assign (set_gqlSchema sdl) ;;;
   ret sdl) w
  = (Normal (manualText (registriesOf w)),
     set_facade (set_gqlSchema (manualText (registriesOf w)) (facade w)) w).
Proof.
  unfold bind, onCompiler, zoom. rewrite getSDL_without_connection.
  unfold assign, modify, ret, set_facade, registriesOf. simpl.
  now destruct w as [[] ?].
Qed.

Lemma performAll_snoc (calls : list Call) (c : Call) (w : World) :
  performAll (calls ++ [c]) w = perform c (performAll calls w).
Proof. unfold performAll. now rewrite fold_left_app. Qed.

(** The text a facade without connection holds was rendered from the
    manually added types, as the registries stood after some of the calls
    made so far. *)
Lemma held_text_is_manual (w0 : World) (calls : list Call) :
  connection (facade w0) = None ->
  truthy (gqlSchema (facade w0)) = false ->
  connection (facade (performAll calls w0)) = None
  /\ (truthy (gqlSchema (facade (performAll calls w0))) = false
      \/ exists k, (k <= List.length calls)%nat
           /\ gqlSchema (facade (performAll calls w0))
              = manualText (registriesOf (performAll (firstn k calls) w0))).
Proof.
  intros Hnone Hempty.
  induction calls as [|c calls IH] using rev_ind.
  - split; [exact Hnone|now left].
  - destruct IH as [Hconn Htext].
    rewrite performAll_snoc.
    destruct (perform_without_connection c (performAll calls w0) Hconn)
      as [Hconn' [Hsame|[refresh [-> Hrender]]]].
    + split; [exact Hconn'|]. rewrite Hsame.
      destruct Htext as [Hfalsy|[k [Hk Hheld]]]; [now left|right].
      exists k. split; [rewrite length_app; simpl; lia|].
      rewrite firstn_app.
      replace (k - List.length calls)%nat with 0%nat by lia.
      simpl. now rewrite app_nil_r.
    + split; [exact Hconn'|right].
      exists (List.length calls). split; [rewrite length_app; simpl; lia|].
      rewrite Hrender. unfold after. rewrite render_without_connection. simpl.
      rewrite firstn_app, firstn_all, Nat.sub_diag. simpl. now rewrite app_nil_r.
Qed.

End WithoutConnectionSpec.

Section Constructed.

Context `{Required}.

(** A facade constructed without connection has none, and holds no text. *)
Lemma construct_without_connection (name : Value) (history : list Event) :
  connection (facade (snd (construct name None history))) = None
  /\ gqlSchema (facade (snd (construct name None history))) = VNull.
Proof.
  unfold construct.
  destruct (truthy (defaultTo emptyString name)); [|split; reflexivity].
  match goal with
  | |- context [snd (?m ?w)] =>
      assert (Hadd : sameFront w (snd (m w)))
  end.
  { pose proof sameFront_refl as Hrefl.
    pose proof sameFront_trans as Htrans.
    apply (@preserves_bind _ sameFront sameFront_trans).
    - apply preserves_add with (R := sameFront) (Q := fun _ _ => True); easy.
    - intros a. apply (@preserves_ret _ sameFront sameFront_refl). }
  destruct Hadd as [Hconn Htext]. split; [exact Hconn|exact Htext].
Qed.

Lemma performAll_without_connection (calls : list Call) (w : World) :
  connection (facade w) = None ->
  connection (facade (performAll calls w)) = None.
Proof.
  revert w. induction calls as [|c calls IH]; intros w Hnone; [exact Hnone|].
  simpl. apply IH. now apply perform_without_connection.
Qed.

(** Without a connection, the flag [getResolvers] and [getSchema] hand
    on is [false]. *)
Lemma flag_without_connection (w : World) :
  connection (facade w) = None ->
  getResolvers w = onResolver (Resolver_getResolvers (VBool false)) w
  /\ forall refresh,
       getSchema refresh w = (Normal (gqlSchema (facade w)), w)
       \/ getSchema refresh w
          = (sdl <- onCompiler (Compiler_getSDL (defaultTo (VBool false) refresh)
                                                (VBool false)) ;;
             assign (set_gqlSchema sdl) ;;;
             ret sdl) w.
Proof.
  intros Hnone. split.
  - unfold getResolvers, bind, this, hasConnection. simpl. now rewrite Hnone.
  - intros refresh.
    destruct (truthy (gqlSchema (facade w))) eqn:Hcached;
      [destruct (truthy (defaultTo (VBool false) refresh)) eqn:Hrefresh|].
    + right. rewrite getSchema_miss by now right.
      unfold hasConnection. now rewrite Hnone.
    + left. now apply getSchema_hit.
    + right. rewrite getSchema_miss by now left.
      unfold hasConnection. now rewrite Hnone.
Qed.

End Constructed.

(** Nothing that [buildSchema] derived from the database is among the
    manual entries of a registry. *)
Lemma manualOf_is_manual (reg : Spec.Registry) (name : jsstring)
    (fields : list Spec.FieldEntry) :
  In (name, fields) (Spec.manualOf reg) ->
  fields <> [] /\ Forall (fun e => Spec.origin e = Spec.Manual) fields.
Proof.
  unfold Spec.manualOf. intros Hin.
  apply filter_In in Hin. destruct Hin as [Hin Hsome].
  apply in_map_iff in Hin. destruct Hin as [[name' fields'] [Heq _]].
  inversion Heq; subst; clear Heq. split.
  - intros Hnil. rewrite Hnil in Hsome. discriminate.
  - apply Forall_forall. intros e He. apply filter_In in He.
    destruct He as [_ He]. unfold Spec.isManual in He.
    now destruct (Spec.origin e).
Qed.

(** With [hasConnection] false the database-backed fields stay out of the
    text; with [true] they are in it. *)
Lemma database_types_are_left_out :
  fst (getSchema VUndefined mixedWorld)
  = Normal (VString (js "type Users {" ++ Spec.newline
                     ++ js "  fullname: String" ++ Spec.newline
                     ++ js "}" ++ Spec.newline))
  /\ fst (Compiler_getSDL VUndefined (VBool true) (compiler (facade mixedWorld)))
     = Normal (VString (js "type Users {" ++ Spec.newline
                        ++ js "  id: Int" ++ Spec.newline
                        ++ js "  fullname: String" ++ Spec.newline
                        ++ js "}" ++ Spec.newline
                        ++ js "type Posts {" ++ Spec.newline
                        ++ js "  id: Int" ++ Spec.newline
                        ++ js "}" ++ Spec.newline)).
Proof. split; reflexivity. Qed.

(** C5. A facade constructed without a database connection stays without
    one, whatever is done with it; [getResolvers] hands the flag [false] to
    the resolver, and [getSchema], when it does not return the text it
    holds, hands [false] to the compiler's [getSDL]. With the compiler of
    the specification, the text [getSchema] returns is then the rendering of
    the manually added types alone, as the registries stood after some of
    the calls made so far: no database-backed type is in it. *)
Theorem without_connection_only_manual_types :
  (forall (env : Required) (name : Value) (history : list Event) (calls : list Call),
      let w := performAll calls (snd (construct name None history)) in
      connection (facade w) = None
      /\ getResolvers w = onResolver (Resolver_getResolvers (VBool false)) w
      /\ forall refresh,
           getSchema refresh w = (Normal (gqlSchema (facade w)), w)
           \/ getSchema refresh w
              = (sdl <- onCompiler (Compiler_getSDL (defaultTo (VBool false) refresh)
                                                    (VBool false)) ;;
                 assign (set_gqlSchema sdl) ;;;
                 ret sdl) w)
  /\ (forall derive introspect columnTypes knex_schema stringify
        (name : Value) (history : list Event) (calls : list Call) (refresh : Value),
        let env := Spec.model derive introspect columnTypes knex_schema stringify in
        let w0 := snd (@construct env name None history) in
        exists k, (k <= List.length calls)%nat
          /\ fst (getSchema refresh (performAll calls w0))
             = Normal (manualText (registriesOf (performAll (firstn k calls) w0)))).
Proof.
  split.
  - intros env name history calls w.
    assert (Hnone : connection (facade w) = None).
    { apply performAll_without_connection. apply construct_without_connection. }
    split; [exact Hnone|]. now apply flag_without_connection.
  - intros derive introspect columnTypes knex_schema stringify name history calls
           refresh env w0.
    subst w0 env.
    destruct (@construct_without_connection
                (Spec.model derive introspect columnTypes knex_schema stringify)
                name history) as [Hnone Hnull].
    assert (Hempty := f_equal truthy Hnull). simpl in Hempty.
    destruct (@held_text_is_manual derive introspect columnTypes knex_schema stringify
                _ calls Hnone Hempty) as [Hconn Htext].
    destruct (flag_without_connection _ Hconn) as [_ Hschema].
    destruct (Hschema refresh) as [Hhit|Hmiss].
    + match type of Hhit with
      | _ = (Normal ?held, _) => destruct (truthy held) eqn:Hcached
      end.
      * destruct Htext as [Hfalsy|[k [Hk Hheld]]]; [congruence|].
        exists k. split; [exact Hk|]. rewrite Hhit. simpl. now rewrite Hheld.
      * (* the facade holds no text: [getSchema] cannot have returned it *)
        exists (List.length calls). split; [lia|].
        rewrite getSchema_miss by now left.
        unfold hasConnection. rewrite Hconn. rewrite firstn_all.
        now rewrite (@render_without_connection derive introspect columnTypes
                       knex_schema stringify).
    + exists (List.length calls). split; [lia|].
      rewrite Hmiss, firstn_all.
      now rewrite (@render_without_connection derive introspect columnTypes
                     knex_schema stringify).
Qed.

(** ** The theorems at work *)

Lemma short_path_throws_witness :
  (nonEmptyPieces (JSString.split JSString.dot (js "getUser.")) < 2)%nat
  /\ addField (js "getUser.") (str "User") (VFunction (UserFunction 7)) VUndefined emptyWorld
     = (Throw (Error "addField path must be in format Type.field"), emptyWorld)
  /\ addInput (js "getUser.") (str "String") emptyWorld
     = (Throw (Error "addInput path must be in format Input.field"), emptyWorld).
Proof.
  assert (Hshort : (nonEmptyPieces (JSString.split JSString.dot (js "getUser.")) < 2)%nat)
    by (vm_compute; lia).
  split; [exact Hshort|].
  exact (@short_path_throws exampleDatabase (js "getUser.") (str "User")
           (VFunction (UserFunction 7)) VUndefined (str "String") emptyWorld
           (or_introl Hshort)).
Defined.

Lemma addField_is_add_witness :
  segmentsOf (js "Users.fullname") = [js "Users"; js "fullname"]
  /\ addField (js "Users.fullname") (str "String") (VFunction (UserFunction 7))
              VUndefined emptyWorld
     = add (str "Users") (str "fullname") (str "String") (VFunction (UserFunction 7))
           VUndefined emptyWorld
  /\ addField (js "Users.fullname") (str "String") (VFunction (UserFunction 7))
              VUndefined emptyWorld
     = (Normal This,
        mkWorld
          (mkDB2Graphql None VNull VNull
             (mkCompiler VNull None
                (Spec.mkRegistries
                   [(js "Users",
                     [Spec.mkFieldEntry (js "fullname") (str "String") (VObject [])
                                        Spec.Manual])]
                   [] : @CompilerState exampleDatabase))
             (mkResolver (beforeHook (resolver (facade emptyWorld))) None
                ([((js "Users", js "fullname"), VFunction (UserFunction 7))]
                 : @ResolverState exampleDatabase))
             None)
          []).
Proof.
  assert (Hseg : segmentsOf (js "Users.fullname") = [js "Users"; js "fullname"])
    by reflexivity.
  destruct (@addField_is_add exampleDatabase (js "Users.fullname") (js "Users")
              (js "fullname") (str "String") (VFunction (UserFunction 7)) VUndefined
              emptyWorld Hseg) as [Hadd Hregistered].
  split; [exact Hseg|]. split; [exact Hadd|].
  erewrite Hregistered; reflexivity.
Defined.


Lemma onBefore_last_writer_wins_witness :
  truthy (VFunction (UserFunction 4)) = true
  /\ hookOf (after (onBefore (VFunction (UserFunction 3)) (VFunction (UserFunction 4)))
               (perform DoWithBuilder
                  (after (onBefore (VFunction (UserFunction 1)) (VFunction (UserFunction 2)))
                         emptyWorld)))
     = mkBeforeHook (VFunction (UserFunction 3)) (VFunction (UserFunction 4))
  /\ hookOf (perform DoWithBuilder emptyWorld) = hookOf emptyWorld.
Proof.
  destruct (@onBefore_last_writer_wins exampleDatabase
              (VFunction (UserFunction 1)) (VFunction (UserFunction 2))
              (VFunction (UserFunction 3)) (VFunction (UserFunction 4))
              (perform DoWithBuilder) emptyWorld eq_refl) as [Hlast Honly].
  split; [reflexivity|]. split; [exact Hlast|].
  apply Honly.
  - intros type field handler r. simpl. unfold Spec.resolver_add.
    destruct type; try reflexivity. destruct field; reflexivity.
  - reflexivity.
  - discriminate.
Defined.

Lemma onBefore_keeps_rejected_witness :
  truthy VUndefined = false
  /\ hookOf (after (onBefore (VFunction (UserFunction 3)) VUndefined) emptyWorld)
     = mkBeforeHook (VFunction (UserFunction 3)) (VFunction (UserFunction 1)).
Proof.
  split; [reflexivity|].
  unfold after.
  rewrite (@onBefore_keeps_rejected exampleDatabase (VFunction (UserFunction 3))
             VUndefined emptyWorld eq_refl).
  reflexivity.
Defined.

Lemma schema_builders_are_benign_witness :
  In DropSchemaTable schemaBuilders
  /\ (exists m rq,
        call DropSchemaTable VUndefined [(js "tablename", str "posts")] exampleIOC = Some m
        /\ requestOf DropSchemaTable [(js "tablename", str "posts")] = Some rq
        /\ m emptyWorld
           = (Normal (Fulfilled (VBool false)),
              mkWorld (facade emptyWorld) [SchemaRequested rq]))
  /\ (exists m rq,
        call AddSchemaColumn VUndefined
             [(js "tablename", str "posts"); (js "columnname", str "title");
              (js "type", str "string")] exampleIOC = Some m
        /\ requestOf AddSchemaColumn
             [(js "tablename", str "posts"); (js "columnname", str "title");
              (js "type", str "string")] = Some rq
        /\ m emptyWorld
           = (Normal (Fulfilled (VBool true)),
              mkWorld (facade emptyWorld) [SchemaRequested rq]))
  /\ (exists m,
        call AddSchemaTable VUndefined
             [(js "tablename", str "tags"); (js "primary", str "id");
              (js "type", str "json")] exampleIOC = Some m
        /\ m emptyWorld = (Normal (Fulfilled (VBool false)), emptyWorld)).
Proof.
  assert (Hdrop : In DropSchemaTable schemaBuilders) by (simpl; tauto).
  assert (Hcolumn : In AddSchemaColumn schemaBuilders) by (simpl; tauto).
  assert (Htable : In AddSchemaTable schemaBuilders) by (simpl; tauto).
  split; [exact Hdrop|]. split; [|split].
  - destruct (@schema_builders_are_benign exampleDatabase DropSchemaTable VUndefined
                [(js "tablename", str "posts")] exampleIOC emptyWorld Hdrop)
      as [m [rq [Hcall [Hrq [Hdriver _]]]]].
    exists m, rq. split; [exact Hcall|]. split; [exact Hrq|].
    rewrite (Hdriver (mkKnex (mkKnexConfig (js "pg") VUndefined VUndefined)) eq_refl);
      [|discriminate].
    simpl in Hrq. inversion Hrq. reflexivity.
  - destruct (@schema_builders_are_benign exampleDatabase AddSchemaColumn VUndefined
                [(js "tablename", str "posts"); (js "columnname", str "title");
                 (js "type", str "string")] exampleIOC emptyWorld Hcolumn)
      as [m [rq [Hcall [Hrq [Hdriver _]]]]].
    exists m, rq. split; [exact Hcall|]. split; [exact Hrq|].
    rewrite (Hdriver (mkKnex (mkKnexConfig (js "pg") VUndefined VUndefined)) eq_refl);
      [|reflexivity].
    simpl in Hrq. inversion Hrq. reflexivity.
  - destruct (@schema_builders_are_benign exampleDatabase AddSchemaTable VUndefined
                [(js "tablename", str "tags"); (js "primary", str "id");
                 (js "type", str "json")] exampleIOC emptyWorld Htable)
      as [m [rq [Hcall [_ [_ Hgate]]]]].
    exists m. split; [exact Hcall|].
    apply (Hgate PostgreSQL); reflexivity.
Defined.

(** Against C4 as worded. Not for every state: in front of a compiler
    that renders the empty text for its empty registry, the call after a
    first [getSchema()] renders again although [refresh] is false. And a
    change of the registry brings no fresh rendering: after [addField] a
    call without [refresh] still returns the text rendered before, which is
    not what the compiler renders then. *)
Lemma getSchema_renders_again_or_serves_stale_text :
  (exists text w1,
      getSchema VUndefined blankWorld = (Normal text, w1)
      /\ getSchema (VBool false) w1 <> (Normal text, w1)
      /\ renderings w1 = 1%nat
      /\ renderings (after (getSchema (VBool false)) w1) = 2%nat)
  /\ (exists text w1 w2,
        getSchema VUndefined oneFieldWorld = (Normal text, w1)
        /\ w2 = perform (DoAddField (js "Query.users") (VArray [str "User"])
                                    (VFunction (UserFunction 8)) VUndefined) w1
        /\ fieldsOf w1 = 1%nat /\ fieldsOf w2 = 2%nat
        /\ getSchema (VBool false) w2 = (Normal text, w2)
        /\ fst (getSchema (VBool true) w2) <> Normal text).
Proof.
  split.
  - exists emptyString, (after (getSchema VUndefined) blankWorld).
    split; [reflexivity|]. split; [|split; reflexivity].
    intros Hsame. apply (f_equal (fun r => renderings (snd r))) in Hsame.
    discriminate Hsame.
  - exists (str "f"), (after (getSchema VUndefined) oneFieldWorld).
    eexists. split; [reflexivity|]. split; [reflexivity|].
    repeat (split; [reflexivity|]). discriminate.
Qed.

Lemma getSchema_is_cached_witness :
  getSchema VUndefined namedWorld = (Normal renderedText, renderedWorld)
  /\ truthy renderedText = true
  /\ getSchema VUndefined
               (performAll [DoAddField (js "Query.posts") (VArray [str "Post"])
                                       (VFunction (UserFunction 7)) VUndefined;
                            DoGetSchema (VBool false)] renderedWorld)
     = (Normal renderedText,
        performAll [DoAddField (js "Query.posts") (VArray [str "Post"])
                               (VFunction (UserFunction 7)) VUndefined;
                    DoGetSchema (VBool false)] renderedWorld)
  /\ truthy (defaultTo (VBool false) (VBool true)) = true
  /\ getSchema (VBool true) (after (getSchema VUndefined) oneFieldWorld)
     = (Normal (str "f"),
        mkWorld (mkDB2Graphql None VNull (str "f")
                   (mkCompiler VNull None ((1, 2)%nat : @CompilerState countingModules))
                   (resolver (facade oneFieldWorld)) None)
                []).
Proof.
  assert (Hfirst : getSchema VUndefined namedWorld = (Normal renderedText, renderedWorld))
    by reflexivity.
  split; [exact Hfirst|]. split; [reflexivity|].
  destruct (@getSchema_is_cached exampleDatabase VUndefined namedWorld)
    as (_ & _ & Hcached).
  split; [apply (Hcached renderedText renderedWorld); solve [exact Hfirst | reflexivity]|].
  split; [reflexivity|].
  destruct (@getSchema_is_cached countingModules (VBool true)
              (after (getSchema VUndefined) oneFieldWorld)) as (Hrenders & _ & _).
  rewrite (Hrenders (or_intror eq_refl)). reflexivity.
Defined.

(** * Further properties of the facade *)

Section Quiet.

Context `{Required}.

Lemma sameTrace_refl (w : World) : sameTrace w w.
Proof. reflexivity. Qed.

Lemma sameTrace_trans (w1 w2 w3 : World) :
  sameTrace w1 w2 -> sameTrace w2 w3 -> sameTrace w1 w3.
Proof. unfold sameTrace. congruence. Qed.

(** X1. Only [connect], [getDatabaseSchema] and the functions of
    [withBuilder] reach the database: [add], [addField], [addInput],
    [onBefore], [getResolvers], [getSchema] and [withBuilder] leave the record
    of what reached it as it is, whether they return or throw and whatever
    the compiler and the resolver do. *)
Theorem only_connect_and_requests_reach_the_database (c : Call) (w : World) :
  reachesDatabase c = false ->
  trace (perform c w) = trace w.
Proof.
  intros Hquiet.
  pose proof sameTrace_refl as Hrefl.
  pose proof sameTrace_trans as Htrans.
  change (sameTrace w (perform c w)).
  destruct c; try discriminate Hquiet; simpl; unfold after.
  - apply preserves_add with (R := sameTrace) (Q := fun _ _ => True); easy.
  - apply preserves_addField with (R := sameTrace) (Q := fun _ _ => True); easy.
  - apply preserves_addInput with (R := sameTrace); easy.
  - apply preserves_onBefore with (R := sameTrace) (Q := fun _ _ => True); easy.
  - apply preserves_getResolvers with (R := sameTrace) (Q := fun _ _ => True); easy.
  - apply preserves_getSchema with (R := sameTrace); easy.
  - apply preserves_withBuilder with (R := sameTrace) (Q := fun _ _ => True); easy.
Qed.

End Quiet.

Lemma only_connect_and_requests_reach_the_database_witness :
  @reachesDatabase exampleDatabase
     (DoAddField (js "Query.posts") (VArray [str "Post"])
                 (VFunction (UserFunction 7)) VUndefined) = false
  /\ trace (perform DoWithBuilder
              (perform (DoAddField (js "Query.posts") (VArray [str "Post"])
                                   (VFunction (UserFunction 7)) VUndefined)
                       blogWorld))
     = trace blogWorld.
Proof.
  split; [reflexivity|].
  rewrite (@only_connect_and_requests_reach_the_database exampleDatabase
             DoWithBuilder _ eq_refl).
  apply (@only_connect_and_requests_reach_the_database exampleDatabase). reflexivity.
Defined.

(** ** Connecting *)

(** Runs the steps of [connect] up to the answers of the adapter and of
    [buildSchema]. *)
Ltac run_connect :=
  cbv [async bind await driver_getSchema request assign modify get
       onCompiler zoom ret throw]; simpl.

Section Connecting.

Context `{Required}.

(** [connect] past its two checks, with an adapter of the facade's own. *)
Lemma connect_with_adapter (namespace : Value) (w : World) (knex : Knex)
    (kind : DriverKind) :
  connection (facade w) = Some knex ->
  lookupDriver (client (config knex)) = OwnAdapter kind ->
  connect namespace w
  = async (
      assign (set_connection (Some (completed knex))) ;;;
      assign (set_dbDriver (Some (Adapter kind))) ;;;
      schema <- await (driver_getSchema (Adapter kind) (completed knex)
                         (namespaceFor namespace knex) (exclude (config knex))) ;;
      assign (set_dbSchema schema) ;;;
      assign (fun f => set_compiler (set_c_dbSchema (dbSchema f) (compiler f)) f) ;;;
      assign (fun f => set_compiler (set_c_dbDriver (dbDriver f) (compiler f)) f) ;;;
      assign (fun f => set_resolver (set_r_dbDriver (dbDriver f) (resolver f)) f) ;;;
      onCompiler Compiler_buildSchema) w.
Proof.
  intros Hconn Hslot.
  unfold connect, async, bind, this. simpl. rewrite Hconn, Hslot. reflexivity.
Qed.

(** [connect] past the driver check with a key the drivers object only
    inherits: nothing is sent to the database. *)
Lemma connect_with_inherited (namespace : Value) (w : World) (knex : Knex)
    (key : jsstring) :
  connection (facade w) = Some knex ->
  lookupDriver (client (config knex)) = Inherited key ->
  exists e d,
    connect namespace w
    = (Normal (Rejected e),
       mkWorld (mkDB2Graphql (Some (completed knex)) (dbSchema (facade w))
                             (gqlSchema (facade w)) (compiler (facade w))
                             (resolver (facade w)) d)
               (trace w)).
Proof.
  intros Hconn Hslot.
  unfold connect, async, bind, this. simpl. rewrite Hconn, Hslot.
  unfold construct_driver.
  destruct (JSString.eqb key (js "constructor")); simpl; eexists; eexists; reflexivity.
Qed.

Lemma database_of_completed (knex : Knex) :
  getProp (cfg_connection (config (completed knex))) "database"
  = getProp (cfg_connection (config knex)) "database".
Proof.
  unfold completed, set_config_connection, orElse. simpl.
  destruct (cfg_connection (config knex)) as [| |[]|z| |s|l|props|fn]; simpl;
    try reflexivity.
  - now destruct (z =? 0)%Z.
  - now destruct s.
Qed.

(** The record of what reached the database after [connect] with an adapter
    of the facade's own, however introspection and [buildSchema] end. *)
Lemma connect_trace (namespace : Value) (w : World) (knex : Knex) (kind : DriverKind) :
  connection (facade w) = Some knex ->
  lookupDriver (client (config knex)) = OwnAdapter kind ->
  trace (snd (connect namespace w))
  = trace w ++ [Introspected kind (namespaceFor namespace knex) (exclude (config knex))].
Proof.
  intros Hconn Hslot. rewrite (connect_with_adapter namespace w Hconn Hslot).
  run_connect.
  destruct (Adapter_getSchema kind (completed knex) (namespaceFor namespace knex)
              (exclude (config knex)) (trace w)) as [schema|e]; simpl;
    [|reflexivity].
  match goal with
  | |- context [Compiler_buildSchema ?c] =>
      destruct (Compiler_buildSchema c) as [[[]|e] c']
  end; reflexivity.
Qed.

(** X2. With a connection whose client is [pg] or [mysql], [connect]
    introspects exactly once, through the adapter of that key, whether
    introspection and [buildSchema] succeed or not. The namespace it asks
    for is the argument when that is truthy, else [config.connection.database]
    when that is truthy, else [public]: an empty string falls through. *)
Theorem connect_introspects_once (namespace : Value) (w : World) (knex : Knex)
    (kind : DriverKind) :
  connection (facade w) = Some knex ->
  lookupDriver (client (config knex)) = OwnAdapter kind ->
  trace (snd (connect namespace w))
    = trace w ++ [Introspected kind (namespaceFor namespace knex) (exclude (config knex))]
  /\ (truthy (defaultTo emptyString namespace) = true ->
      namespaceFor namespace knex = namespace)
  /\ (truthy (defaultTo emptyString namespace) = false ->
      truthy (getProp (cfg_connection (config knex)) "database") = true ->
      namespaceFor namespace knex = getProp (cfg_connection (config knex)) "database")
  /\ (truthy (defaultTo emptyString namespace) = false ->
      truthy (getProp (cfg_connection (config knex)) "database") = false ->
      namespaceFor namespace knex = str "public").
Proof.
  intros Hconn Hslot. split; [now apply connect_trace|].
  unfold namespaceFor. rewrite database_of_completed. unfold orElse.
  repeat split.
  - intros Hns. rewrite Hns. simpl.
    assert (Hsame : defaultTo emptyString namespace = namespace)
      by (destruct namespace; try reflexivity; discriminate Hns).
    rewrite Hsame in *. now rewrite Hns.
  - intros Hns Hdb. rewrite Hns. cbv iota. now rewrite Hdb.
  - intros Hns Hdb. rewrite Hns. cbv iota. now rewrite Hdb.
Qed.

(** X3. When introspection and [buildSchema] succeed, the promise of
    [connect] is fulfilled and the facade is filled in: [dbDriver] is the
    adapter, [dbSchema] what the adapter returned, the compiler holds the
    same schema and adapter (and is as [buildSchema] left it), the resolver
    holds the adapter, the configuration is completed; the hook of the
    resolver, its own state and the rendered text are as before. *)
Theorem connect_fills_the_facade (namespace : Value) (w : World) (knex : Knex)
    (kind : DriverKind) (schema : Value) (built : Compiler CompilerState) :
  connection (facade w) = Some knex ->
  lookupDriver (client (config knex)) = OwnAdapter kind ->
  Adapter_getSchema kind (completed knex) (namespaceFor namespace knex)
                    (exclude (config knex)) (trace w) = Normal schema ->
  Compiler_buildSchema (mkCompiler schema (Some (Adapter kind))
                                   (c_state (compiler (facade w))))
    = (Normal tt, built) ->
  connect namespace w
  = (Normal (Fulfilled tt),
     mkWorld
       (mkDB2Graphql (Some (completed knex)) schema (gqlSchema (facade w)) built
          (mkResolver (beforeHook (resolver (facade w))) (Some (Adapter kind))
                      (r_state (resolver (facade w))))
          (Some (Adapter kind)))
       (trace w ++ [Introspected kind (namespaceFor namespace knex)
                                 (exclude (config knex))])).
Proof.
  intros Hconn Hslot Hintro Hbuild.
  rewrite (connect_with_adapter namespace w Hconn Hslot).
  run_connect. rewrite Hintro. simpl.
  unfold set_c_dbDriver, set_c_dbSchema. simpl. rewrite Hbuild. reflexivity.
Qed.

(** X4. When introspection fails, the promise of [connect] is rejected with
    the error of the adapter as it is, and the facade is left half set:
    [dbDriver] is already the adapter and the configuration is completed,
    while [dbSchema], the compiler and the resolver are as before. When
    [buildSchema] fails after a successful introspection, the promise is
    rejected with its error and everything else has been assigned. *)
Theorem connect_failures_leave_the_driver_set (namespace : Value) (w : World)
    (knex : Knex) (kind : DriverKind) :
  connection (facade w) = Some knex ->
  lookupDriver (client (config knex)) = OwnAdapter kind ->
  (forall e,
      Adapter_getSchema kind (completed knex) (namespaceFor namespace knex)
                        (exclude (config knex)) (trace w) = Throw e ->
      connect namespace w
      = (Normal (Rejected e),
         mkWorld
           (mkDB2Graphql (Some (completed knex)) (dbSchema (facade w))
              (gqlSchema (facade w)) (compiler (facade w)) (resolver (facade w))
              (Some (Adapter kind)))
           (trace w ++ [Introspected kind (namespaceFor namespace knex)
                                     (exclude (config knex))])))
  /\ (forall schema e left,
        Adapter_getSchema kind (completed knex) (namespaceFor namespace knex)
                          (exclude (config knex)) (trace w) = Normal schema ->
        Compiler_buildSchema (mkCompiler schema (Some (Adapter kind))
                                         (c_state (compiler (facade w))))
          = (Throw e, left) ->
        connect namespace w
        = (Normal (Rejected e),
           mkWorld
             (mkDB2Graphql (Some (completed knex)) schema (gqlSchema (facade w)) left
                (mkResolver (beforeHook (resolver (facade w))) (Some (Adapter kind))
                            (r_state (resolver (facade w))))
                (Some (Adapter kind)))
             (trace w ++ [Introspected kind (namespaceFor namespace knex)
                                       (exclude (config knex))]))).
Proof.
  intros Hconn Hslot. split.
  - intros e Hintro. rewrite (connect_with_adapter namespace w Hconn Hslot).
    run_connect. rewrite Hintro. reflexivity.
  - intros schema e left Hintro Hbuild.
    rewrite (connect_with_adapter namespace w Hconn Hslot).
    run_connect. rewrite Hintro. simpl.
    unfold set_c_dbDriver, set_c_dbSchema. simpl. rewrite Hbuild. reflexivity.
Qed.

End Connecting.

Lemma connect_introspects_once_witness :
  connection (facade blogWorld) = Some blogKnex
  /\ lookupDriver (client (config blogKnex)) = OwnAdapter PostgreSQL
  /\ trace (snd (connect VUndefined blogWorld))
     = [Introspected PostgreSQL (str "blog") VUndefined].
Proof.
  split; [reflexivity|]. split; [reflexivity|].
  destruct (@connect_introspects_once exampleDatabase VUndefined blogWorld blogKnex
              PostgreSQL eq_refl eq_refl) as [Hrecord _].
  exact Hrecord.
Defined.

Lemma connect_fills_the_facade_witness :
  connection (facade blogWorld) = Some blogKnex
  /\ lookupDriver (client (config blogKnex)) = OwnAdapter PostgreSQL
  /\ fst (connect (str "archive") blogWorld) = Normal (Fulfilled tt)
  /\ dbDriver (facade (snd (connect (str "archive") blogWorld)))
     = Some (Adapter PostgreSQL)
  /\ trace (snd (connect (str "archive") blogWorld))
     = [Introspected PostgreSQL (str "archive") VUndefined].
Proof.
  split; [reflexivity|]. split; [reflexivity|].
  rewrite (@connect_fills_the_facade exampleDatabase (str "archive") blogWorld blogKnex
             PostgreSQL (VObject [])
             (snd (Compiler_buildSchema
                     (mkCompiler (VObject []) (Some (Adapter PostgreSQL))
                                 (c_state (compiler (facade blogWorld))))))
             eq_refl eq_refl eq_refl eq_refl).
  repeat split.
Defined.

Lemma connect_failures_leave_the_driver_set_witness :
  connection (facade refusedWorld) = Some blogKnex
  /\ lookupDriver (client (config blogKnex)) = OwnAdapter PostgreSQL
  /\ fst (connect VUndefined refusedWorld)
     = Normal (Rejected (Error "connection refused"))
  /\ dbDriver (facade (snd (connect VUndefined refusedWorld)))
     = Some (Adapter PostgreSQL)
  /\ dbSchema (facade (snd (connect VUndefined refusedWorld))) = VNull
  /\ fst (connect VUndefined unbuiltWorld) = Normal (Rejected (Error "cannot build"))
  /\ dbSchema (facade (snd (connect VUndefined unbuiltWorld))) = VObject [].
Proof.
  split; [reflexivity|]. split; [reflexivity|].
  destruct (@connect_failures_leave_the_driver_set failingModules VUndefined
              refusedWorld blogKnex PostgreSQL eq_refl eq_refl) as [Hrefused _].
  destruct (@connect_failures_leave_the_driver_set failingModules VUndefined
              unbuiltWorld mysqlKnex Mysql eq_refl eq_refl) as [_ Hunbuilt].
  rewrite (Hrefused (Error "connection refused") eq_refl).
  rewrite (Hunbuilt (VObject []) (Error "cannot build")
             (compiler (facade (snd (connect VUndefined unbuiltWorld))))
             eq_refl eq_refl).
  repeat split.
Defined.

(** ** The connection of the facade *)

Section Kept.

Context `{Required}.

Lemma sameLink_refl (w : World) : sameLink w w.
Proof. now repeat split. Qed.

Lemma sameLink_trans (w1 w2 w3 : World) :
  sameLink w1 w2 -> sameLink w2 w3 -> sameLink w1 w3.
Proof. unfold sameLink. intros (? & ? & ?) (? & ? & ?). repeat split; congruence. Qed.

(** Only [connect] and [getDatabaseSchema] write [connection], [dbSchema]
    and [dbDriver]. *)
Lemma perform_keeps_link (c : Call) (w : World) :
  connects c = false -> sameLink w (perform c w).
Proof.
  intros Hc.
  pose proof sameLink_refl as Hrefl.
  pose proof sameLink_trans as Htrans.
  destruct c; try discriminate Hc; simpl; unfold after.
  - apply preserves_add with (R := sameLink) (Q := fun _ _ => True); easy.
  - apply preserves_addField with (R := sameLink) (Q := fun _ _ => True); easy.
  - apply preserves_addInput with (R := sameLink); easy.
  - apply preserves_onBefore with (R := sameLink) (Q := fun _ _ => True); easy.
  - apply preserves_getResolvers with (R := sameLink) (Q := fun _ _ => True); easy.
  - apply preserves_getSchema with (R := sameLink); easy.
  - apply preserves_withBuilder with (R := sameLink) (Q := fun _ _ => True); easy.
  - destruct (call fn root args ioc) as [m|] eqn:Hm; [|apply sameLink_refl].
    eapply preserves_call with (R := sameLink); [exact Hrefl|exact Htrans| |exact Hm].
    intros; now repeat split.
Qed.

Lemma completed_twice (knex : Knex) : completed (completed knex) = completed knex.
Proof.
  unfold completed, set_config_connection, orElse. simpl.
  destruct (truthy (cfg_connection (config knex))) eqn:Hc; [now rewrite Hc|reflexivity].
Qed.

(** What [connect] leaves in [connection]: the instance it found, its
    configuration completed once a driver key was found. *)
Lemma connect_connection (namespace : Value) (w : World) :
  connection (facade (snd (connect namespace w)))
  = match connection (facade w) with
    | None => None
    | Some knex =>
        match lookupDriver (client (config knex)) with
        | Missing => Some knex
        | _ => Some (completed knex)
        end
    end.
Proof.
  destruct (connection (facade w)) as [knex|] eqn:Hconn.
  - destruct (lookupDriver (client (config knex))) as [kind|key|] eqn:Hslot.
    + rewrite (connect_with_adapter namespace w Hconn Hslot). run_connect.
      destruct (Adapter_getSchema kind (completed knex) (namespaceFor namespace knex)
                  (exclude (config knex)) (trace w)) as [schema|e]; simpl;
        [|reflexivity].
      match goal with
      | |- context [Compiler_buildSchema ?c] =>
          destruct (Compiler_buildSchema c) as [[[]|e] c']
      end; reflexivity.
    + destruct (connect_with_inherited namespace w Hconn Hslot) as (e & d & ->).
      reflexivity.
    + rewrite (connect_without_driver namespace w Hconn Hslot). exact Hconn.
  - rewrite (connect_without_connection namespace w Hconn). exact Hconn.
Qed.

(** [getDatabaseSchema] leaves the world [connect()] leaves when it has to
    connect, and the world it found when it has not. *)
Lemma getDatabaseSchema_world (refresh : Value) (w : World) :
  snd (getDatabaseSchema refresh w)
  = if mustConnect refresh w then snd (connect VUndefined w) else w.
Proof.
  cbv [getDatabaseSchema mustConnect async bind this await get ret throw].
  destruct (negb (truthy (dbSchema (facade w)))
            || truthy (defaultTo (VBool false) refresh)); [|reflexivity].
  now destruct (connect VUndefined w) as [[[[]|e]|e] w'].
Qed.

Lemma perform_keeps_connection (c : Call) (w : World) :
  connection (facade (perform c w)) = connection (facade w)
  \/ connection (facade (perform c w)) = option_map completed (connection (facade w)).
Proof.
  destruct (connects c) eqn:Hc.
  - assert (Hconnect : forall namespace,
               connection (facade (snd (connect namespace w))) = connection (facade w)
               \/ connection (facade (snd (connect namespace w)))
                  = option_map completed (connection (facade w))).
    { intros namespace. rewrite connect_connection.
      destruct (connection (facade w)) as [knex|]; [|now left].
      destruct (lookupDriver (client (config knex))); simpl; auto. }
    destruct c; try discriminate Hc; simpl; unfold after.
    + apply Hconnect.
    + rewrite getDatabaseSchema_world.
      destruct (mustConnect refresh w); [apply Hconnect|now left].
  - left. now destruct (perform_keeps_link c w Hc).
Qed.

(** X5. The facade keeps the Knex instance its constructor was given: no
    sequence of calls drops it, replaces it or supplies one that was
    missing. The one change made to it is that [connect] completes its
    [config.connection] with an empty object. So [!!this.connection], the
    flag [getResolvers] and [getSchema] hand on, is fixed at construction. *)
Theorem the_connection_stays (name : Value) (db : option Knex)
    (history : list Event) (calls : list Call) :
  let w := performAll calls (snd (construct name db history)) in
  (connection (facade w) = db \/ connection (facade w) = option_map completed db)
  /\ hasConnection (facade w) = match db with Some _ => true | None => false end.
Proof.
  intros w.
  assert (Hstart : connection (facade (snd (construct name db history))) = db).
  { unfold construct.
    destruct (truthy (defaultTo emptyString name)); [|reflexivity].
    pose proof sameLink_refl as Hrefl.
    pose proof sameLink_trans as Htrans.
    match goal with
    | |- context [snd (?m ?w0)] => assert (Hadd : sameLink w0 (snd (m w0)))
    end.
    { apply (@preserves_bind _ sameLink sameLink_trans).
      - apply preserves_add with (R := sameLink) (Q := fun _ _ => True); easy.
      - intros a. apply (@preserves_ret _ sameLink sameLink_refl). }
    now destruct Hadd as [Hconn _]. }
  assert (Hkept : forall calls w0,
             connection (facade (performAll calls w0)) = connection (facade w0)
             \/ connection (facade (performAll calls w0))
                = option_map completed (connection (facade w0))).
  { clear. intros calls. induction calls as [|c calls IH]; intros w0; [now left|].
    simpl. destruct (IH (perform c w0)) as [-> | ->];
      destruct (perform_keeps_connection c w0) as [-> | ->]; auto.
    right. destruct (connection (facade w0)) as [knex|]; [|reflexivity].
    simpl. now rewrite completed_twice. }
  assert (Hw : connection (facade w) = db \/ connection (facade w) = option_map completed db)
    by (pose proof (Hkept calls (snd (construct name db history))) as Hw;
        rewrite Hstart in Hw; exact Hw).
  split; [exact Hw|].
  unfold hasConnection. destruct Hw as [-> | ->]; now destruct db.
Qed.

End Kept.

(** ** Loading the database schema lazily *)

Section Lazy.

Context `{Required}.

Lemma getDatabaseSchema_hit (refresh : Value) (w : World) :
  mustConnect refresh w = false ->
  getDatabaseSchema refresh w = (Normal (Fulfilled (dbSchema (facade w))), w).
Proof.
  intros Hhit. revert Hhit.
  cbv [getDatabaseSchema mustConnect async bind this await get ret throw].
  now intros ->.
Qed.

Lemma getDatabaseSchema_miss (refresh : Value) (w : World) :
  mustConnect refresh w = true ->
  getDatabaseSchema refresh w
  = (Normal (settled (fst (connect VUndefined w))
                     (dbSchema (facade (snd (connect VUndefined w))))),
     snd (connect VUndefined w)).
Proof.
  intros Hmiss. revert Hmiss.
  cbv [getDatabaseSchema mustConnect async bind this await get ret throw].
  intros ->.
  now destruct (connect VUndefined w) as [[[[]|e]|e] w'].
Qed.

(** A fulfilled [getDatabaseSchema] hands out what the facade holds. *)
Lemma getDatabaseSchema_holds (refresh : Value) (w w1 : World) (schema : Value) :
  getDatabaseSchema refresh w = (Normal (Fulfilled schema), w1) ->
  dbSchema (facade w1) = schema.
Proof.
  destruct (mustConnect refresh w) eqn:Hmust.
  - rewrite (getDatabaseSchema_miss refresh w Hmust).
    destruct (connect VUndefined w) as [[[[]|e]|e] w']; simpl; congruence.
  - rewrite (getDatabaseSchema_hit refresh w Hmust). congruence.
Qed.

Lemma perform_keeps_schema (c : Call) (w : World) :
  truthy (dbSchema (facade w)) = true ->
  reconnects c = false ->
  dbSchema (facade (perform c w)) = dbSchema (facade w).
Proof.
  intros Hheld Hc.
  destruct (connects c) eqn:Hconnects.
  - destruct c; try discriminate; simpl in *. unfold after.
    rewrite getDatabaseSchema_world. unfold mustConnect. now rewrite Hheld, Hc.
  - now destruct (perform_keeps_link c w Hconnects) as (_ & Hschema & _).
Qed.

Lemma performAll_keeps_schema (calls : list Call) (w : World) :
  truthy (dbSchema (facade w)) = true ->
  forallb (fun c => negb (reconnects c)) calls = true ->
  dbSchema (facade (performAll calls w)) = dbSchema (facade w).
Proof.
  revert w. induction calls as [|c calls IH]; intros w Hheld Hcalls; [reflexivity|].
  simpl in Hcalls. apply andb_true_iff in Hcalls. destruct Hcalls as [Hc Hcalls].
  apply negb_true_iff in Hc.
  pose proof (perform_keeps_schema c w Hheld Hc) as Hstep.
  simpl. rewrite IH; [exact Hstep| |exact Hcalls]. now rewrite Hstep.
Qed.

(** X6. The database schema is loaded lazily: once [getDatabaseSchema] has
    handed out a truthy schema, and as long as nobody calls [connect] or asks
    [getDatabaseSchema] for a refresh, a later [getDatabaseSchema] without
    refresh hands out the same schema and does nothing else: it neither
    introspects nor changes the facade. *)
Theorem getDatabaseSchema_is_lazy (refresh again : Value) (w w1 : World)
    (schema : Value) (calls : list Call) :
  getDatabaseSchema refresh w = (Normal (Fulfilled schema), w1) ->
  truthy schema = true ->
  forallb (fun c => negb (reconnects c)) calls = true ->
  truthy (defaultTo (VBool false) again) = false ->
  getDatabaseSchema again (performAll calls w1)
  = (Normal (Fulfilled schema), performAll calls w1).
Proof.
  intros Hfirst Htruthy Hcalls Hagain.
  apply getDatabaseSchema_holds in Hfirst.
  assert (Hheld : dbSchema (facade (performAll calls w1)) = schema).
  { rewrite performAll_keeps_schema; [exact Hfirst| |exact Hcalls].
    now rewrite Hfirst. }
  rewrite getDatabaseSchema_hit; [now rewrite Hheld|].
  unfold mustConnect. now rewrite Hheld, Htruthy, Hagain.
Qed.

(** X7. When the facade holds no truthy schema, or a refresh is asked for,
    [getDatabaseSchema] is [connect()] without a namespace: with an adapter
    for the client it introspects once, the namespace being
    [config.connection.database] or else [public]; it leaves the world
    [connect()] leaves; its promise is rejected with the error of [connect]
    as it is, and otherwise holds the schema the facade holds then. *)
Theorem getDatabaseSchema_connects_with_defaults (refresh : Value) (w : World)
    (knex : Knex) (kind : DriverKind) :
  mustConnect refresh w = true ->
  connection (facade w) = Some knex ->
  lookupDriver (client (config knex)) = OwnAdapter kind ->
  getDatabaseSchema refresh w
    = (Normal (settled (fst (connect VUndefined w))
                       (dbSchema (facade (snd (connect VUndefined w))))),
       snd (connect VUndefined w))
  /\ trace (snd (getDatabaseSchema refresh w))
     = trace w ++ [Introspected kind
                     (orElse (getProp (cfg_connection (config knex)) "database")
                             (str "public"))
                     (exclude (config knex))].
Proof.
  intros Hmust Hconn Hslot.
  rewrite (getDatabaseSchema_miss refresh w Hmust). split; [reflexivity|].
  simpl. rewrite (connect_trace VUndefined w Hconn Hslot).
  unfold namespaceFor. now rewrite database_of_completed.
Qed.

(** X8. A refresh does not remember the namespace of the [connect] before
    it: after [connect(namespace)], [getDatabaseSchema] with a truthy
    [refresh] introspects the namespace [connect()] would choose on its own,
    whatever [namespace] was. *)
Theorem refresh_forgets_the_namespace (namespace refresh : Value) (w : World)
    (knex : Knex) (kind : DriverKind) :
  connection (facade w) = Some knex ->
  lookupDriver (client (config knex)) = OwnAdapter kind ->
  truthy (defaultTo (VBool false) refresh) = true ->
  trace (snd (getDatabaseSchema refresh (snd (connect namespace w))))
  = trace w
    ++ [Introspected kind (namespaceFor namespace knex) (exclude (config knex));
        Introspected kind (namespaceFor VUndefined knex) (exclude (config knex))].
Proof.
  intros Hconn Hslot Hrefresh.
  assert (Hconn1 : connection (facade (snd (connect namespace w))) = Some (completed knex))
    by (now rewrite connect_connection, Hconn, Hslot).
  rewrite getDatabaseSchema_miss
    by (unfold mustConnect; rewrite Hrefresh; apply orb_true_r).
  simpl.
  rewrite (connect_trace VUndefined (snd (connect namespace w)) Hconn1 Hslot).
  rewrite (connect_trace namespace w Hconn Hslot).
  rewrite <- app_assoc. simpl.
  unfold namespaceFor. now rewrite completed_twice.
Qed.

End Lazy.

Lemma getDatabaseSchema_is_lazy_witness :
  getDatabaseSchema VUndefined blogWorld = (Normal (Fulfilled (VObject [])), loadedWorld)
  /\ truthy (VObject []) = true
  /\ getDatabaseSchema (VBool false)
       (performAll [DoAddField (js "Query.posts") (VArray [str "Post"])
                               (VFunction (UserFunction 7)) VUndefined;
                    DoGetDatabaseSchema VUndefined;
                    DoGetSchema (VBool true)] loadedWorld)
     = (Normal (Fulfilled (VObject [])),
        performAll [DoAddField (js "Query.posts") (VArray [str "Post"])
                               (VFunction (UserFunction 7)) VUndefined;
                    DoGetDatabaseSchema VUndefined;
                    DoGetSchema (VBool true)] loadedWorld).
Proof.
  assert (Hfirst : getDatabaseSchema VUndefined blogWorld
                   = (Normal (Fulfilled (VObject [])), loadedWorld)) by reflexivity.
  split; [exact Hfirst|]. split; [reflexivity|].
  apply (@getDatabaseSchema_is_lazy exampleDatabase VUndefined (VBool false) blogWorld
           loadedWorld (VObject [])); [exact Hfirst|reflexivity..].
Defined.

Lemma getDatabaseSchema_connects_with_defaults_witness :
  mustConnect (VBool true) loadedWorld = true
  /\ connection (facade loadedWorld) = Some blogKnex
  /\ lookupDriver (client (config blogKnex)) = OwnAdapter PostgreSQL
  /\ trace (snd (getDatabaseSchema (VBool true) loadedWorld))
     = [Introspected PostgreSQL (str "blog") VUndefined;
        Introspected PostgreSQL (str "blog") VUndefined].
Proof.
  split; [reflexivity|]. split; [reflexivity|]. split; [reflexivity|].
  destruct (@getDatabaseSchema_connects_with_defaults exampleDatabase (VBool true)
              loadedWorld blogKnex PostgreSQL eq_refl eq_refl eq_refl)
    as [_ Hrecord].
  exact Hrecord.
Defined.

Lemma refresh_forgets_the_namespace_witness :
  connection (facade blogWorld) = Some blogKnex
  /\ lookupDriver (client (config blogKnex)) = OwnAdapter PostgreSQL
  /\ truthy (defaultTo (VBool false) (VBool true)) = true
  /\ trace (snd (getDatabaseSchema (VBool true)
                   (snd (connect (str "archive") blogWorld))))
     = [Introspected PostgreSQL (str "archive") VUndefined;
        Introspected PostgreSQL (str "blog") VUndefined].
Proof.
  split; [reflexivity|]. split; [reflexivity|]. split; [reflexivity|].
  exact (@refresh_forgets_the_namespace exampleDatabase (str "archive") (VBool true)
           blogWorld blogKnex PostgreSQL eq_refl eq_refl eq_refl).
Defined.

(** ** When the compiler or the resolver throw *)

Section Failing.

Context `{Required}.

(** X9. A refresh that fails does not cost the facade the text it holds:
    when [getSDL] throws during [getSchema(refresh)], [getSchema] throws the
    same error, only the compiler is as [getSDL] left it, and a later
    [getSchema()] still returns the text rendered before, without asking
    the compiler. *)
Theorem failed_refresh_keeps_the_text (refresh : Value) (w : World) (e : JSError)
    (left : Compiler CompilerState) :
  truthy (gqlSchema (facade w)) = true ->
  truthy (defaultTo (VBool false) refresh) = true ->
  Compiler_getSDL (defaultTo (VBool false) refresh)
                  (VBool (hasConnection (facade w))) (compiler (facade w))
    = (Throw e, left) ->
  getSchema refresh w = (Throw e, set_facade (set_compiler left (facade w)) w)
  /\ getSchema VUndefined (snd (getSchema refresh w))
     = (Normal (gqlSchema (facade w)), snd (getSchema refresh w)).
Proof.
  intros Hheld Hrefresh Hsdl.
  assert (Hthrows : getSchema refresh w
                    = (Throw e, set_facade (set_compiler left (facade w)) w)).
  { rewrite getSchema_miss by now right.
    cbv [bind onCompiler zoom]. now rewrite Hsdl. }
  split; [exact Hthrows|].
  rewrite Hthrows. simpl snd.
  now rewrite getSchema_hit.
Qed.

(** X10. [add] is not atomic. When the compiler's [addType] throws, [add]
    throws the same error and the resolver has not been asked. When
    [addType] returns and the resolver's [add] throws, [add] throws that
    error and the compiler keeps the field: the schema then has a field
    without a resolver of the facade's making. *)
Theorem add_is_not_atomic (type field returns handler params : Value) (w : World) :
  (forall e left,
      Compiler_addType type field returns (defaultTo (VObject []) params)
                       (compiler (facade w)) = (Throw e, left) ->
      add type field returns handler params w
      = (Throw e, set_facade (set_compiler left (facade w)) w))
  /\ (forall e c r,
        Compiler_addType type field returns (defaultTo (VObject []) params)
                         (compiler (facade w)) = (Normal tt, c) ->
        Resolver_add type field handler (resolver (facade w)) = (Throw e, r) ->
        add type field returns handler params w
        = (Throw e,
           mkWorld (mkDB2Graphql (connection (facade w)) (dbSchema (facade w))
                                 (gqlSchema (facade w)) c r (dbDriver (facade w)))
                   (trace w))).
Proof.
  split.
  - intros e left Hc. cbv [add bind onCompiler zoom]. now rewrite Hc.
  - intros e c r Hc Hr. cbv [add bind onCompiler onResolver zoom].
    rewrite Hc. simpl. now rewrite Hr.
Qed.

End Failing.

Lemma failed_refresh_keeps_the_text_witness :
  truthy (gqlSchema (facade shownWorld)) = true
  /\ truthy (defaultTo (VBool false) (VBool true)) = true
  /\ fst (getSchema (VBool true) shownWorld) = Throw (Error "cannot render")
  /\ fst (getSchema VUndefined (snd (getSchema (VBool true) shownWorld)))
     = Normal (str "type Query").
Proof.
  split; [reflexivity|]. split; [reflexivity|].
  destruct (@failed_refresh_keeps_the_text failingModules (VBool true) shownWorld
              (Error "cannot render") (compiler (facade shownWorld))
              eq_refl eq_refl eq_refl) as [Hthrows Hlater].
  rewrite Hlater, Hthrows. split; reflexivity.
Defined.

Lemma add_is_not_atomic_witness :
  fst (add (str "Query") (str "posts") (str "Post") (VFunction (UserFunction 7))
           VUndefined refusedWorld)
    = Throw (Error "resolver is closed")
  /\ c_state (compiler (facade (snd (add (str "Query") (str "posts") (str "Post")
                                         (VFunction (UserFunction 7)) VUndefined
                                         refusedWorld))))
     <> c_state (compiler (facade refusedWorld)).
Proof.
  destruct (@add_is_not_atomic failingModules (str "Query") (str "posts") (str "Post")
              (VFunction (UserFunction 7)) VUndefined refusedWorld) as [_ Hlate].
  rewrite (Hlate (Error "resolver is closed")
             (snd (Compiler_addType (str "Query") (str "posts") (str "Post")
                     (VObject []) (compiler (facade refusedWorld))))
             (resolver (facade refusedWorld)) eq_refl eq_refl).
  split; [reflexivity|]. simpl. discriminate.
Defined.

(** ** The names [addField] and [addInput] hand on *)

Section Names.

Context `{Required}.

Lemma split_pieces_free (sep : N) (s : jsstring) :
  Forall (fun piece => ~ In sep piece) (JSString.split sep s).
Proof.
  induction s as [|c r IH]; simpl.
  - constructor; [easy|constructor].
  - destruct (N.eqb_spec c sep) as [->|Hne]; [constructor; [easy|exact IH]|].
    destruct (JSString.split sep r) as [|piece pieces].
    + constructor; [|constructor]. intros [Hc|[]]. now apply Hne.
    + inversion IH as [|? ? Hpiece Hpieces]; subst.
      constructor; [|exact Hpieces].
      intros [Hc|Hin]; [now apply Hne|now apply Hpiece].
Qed.

(** No segment is empty and none holds a dot. *)
Lemma segmentsOf_clean (path : jsstring) :
  Forall (fun s => s <> [] /\ ~ In JSString.dot s) (segmentsOf path).
Proof.
  unfold segmentsOf. apply Forall_forall. intros s Hin.
  apply filter_In in Hin. destruct Hin as [Hin Hfull]. split.
  - intros ->. discriminate Hfull.
  - pose proof (split_pieces_free JSString.dot (JSString.trim path)) as Hfree.
    rewrite Forall_forall in Hfree. now apply Hfree.
Qed.

Lemma last_two {A} (l : list A) :
  (2 <= List.length l)%nat -> exists pre a b, l = pre ++ [a; b].
Proof.
  intros Hlen.
  destruct (exists_last (l := l)) as (l1 & b & ->);
    [intros ->; simpl in Hlen; lia|].
  rewrite length_app in Hlen. simpl in Hlen.
  destruct (exists_last (l := l1)) as (pre & a & ->);
    [intros ->; simpl in Hlen; lia|].
  exists pre, a, b. now rewrite <- app_assoc.
Qed.

(** X11. Whatever the path, [addField] and [addInput] either throw their
    error about the path format and leave everything as it was, or go on
    with a type name and a field name that are not empty and hold no dot:
    [addField] is then [add] for these two names and [addInput] hands the
    same two to the compiler's [addInput]. Both methods choose the same
    names for the same path. *)
Theorem paths_give_clean_names (path : jsstring)
    (returns handler params subType : Value) (w : World) :
  (addField path returns handler params w
     = (Throw (Error "addField path must be in format Type.field"), w)
   /\ addInput path subType w
     = (Throw (Error "addInput path must be in format Input.field"), w))
  \/ exists type field,
       type <> [] /\ field <> []
       /\ ~ In JSString.dot type /\ ~ In JSString.dot field
       /\ addField path returns handler params w
          = add (VString type) (VString field) returns handler params w
       /\ addInput path subType w
          = (onCompiler (Compiler_addInput (VString type) (VString field) subType) ;;;
             ret This) w.
Proof.
  destruct (Nat.ltb_spec (List.length (segmentsOf path)) 2) as [Hshort|Hlong].
  - left. apply Nat.ltb_lt in Hshort. unfold addField, addInput.
    now rewrite Hshort.
  - right. destruct (last_two (segmentsOf path) Hlong) as (pre & type & field & Hseg).
    pose proof (segmentsOf_clean path) as Hclean. rewrite Hseg in Hclean.
    apply Forall_app in Hclean. destruct Hclean as [_ Hclean].
    inversion Hclean as [|? ? [Htype Htypefree] Hrest]; subst.
    inversion Hrest as [|? ? [Hfield Hfieldfree] _]; subst.
    exists type, field. repeat split; try assumption.
    + now apply addField_on_segments with (pre := pre).
    + now apply addInput_on_segments with (pre := pre).
Qed.

Lemma trimStart_app (s t : jsstring) :
  JSString.trimStart (s ++ t)
  = if blank s then JSString.trimStart t else JSString.trimStart s ++ t.
Proof.
  induction s as [|c r IH]; [reflexivity|].
  simpl. destruct (JSString.isWhiteSpace c); [exact IH|reflexivity].
Qed.

Lemma trimStart_blank (s : jsstring) : blank s = true -> JSString.trimStart s = [].
Proof.
  induction s as [|c r IH]; [reflexivity|].
  simpl. destruct (JSString.isWhiteSpace c); [exact IH|discriminate].
Qed.

Lemma blank_rev (s : jsstring) : blank (rev s) = blank s.
Proof.
  unfold blank. induction s as [|c r IH]; [reflexivity|].
  simpl. rewrite forallb_app, IH. simpl.
  rewrite andb_true_r. apply andb_comm.
Qed.

Lemma trimEnd_app_blank (s t : jsstring) :
  blank t = true -> JSString.trimEnd (s ++ t) = JSString.trimEnd s.
Proof.
  intros Ht. unfold JSString.trimEnd.
  rewrite rev_app_distr, trimStart_app, blank_rev, Ht. reflexivity.
Qed.

(** White space around a string does not count for [trim]. *)
Lemma trim_padded (lead s trail : jsstring) :
  blank lead = true -> blank trail = true ->
  JSString.trim (lead ++ s ++ trail) = JSString.trim s.
Proof.
  intros Hlead Htrail. unfold JSString.trim.
  rewrite trimStart_app, Hlead, trimStart_app.
  destruct (blank s) eqn:Hs.
  - now rewrite (trimStart_blank trail Htrail), (trimStart_blank s Hs).
  - now apply trimEnd_app_blank.
Qed.

(** X12. White space around a path does not count: with any white space
    in front of the path and after it, [addField] and [addInput] do exactly
    what they do for the path itself, errors included. *)
Theorem surrounding_space_is_ignored (lead path trail : jsstring)
    (returns handler params subType : Value) (w : World) :
  blank lead = true ->
  blank trail = true ->
  addField (lead ++ path ++ trail) returns handler params w
    = addField path returns handler params w
  /\ addInput (lead ++ path ++ trail) subType w = addInput path subType w.
Proof.
  intros Hlead Htrail.
  assert (Hseg : segmentsOf (lead ++ path ++ trail) = segmentsOf path)
    by (unfold segmentsOf; now rewrite trim_padded).
  unfold addField, addInput. now rewrite Hseg.
Qed.

End Names.

Lemma surrounding_space_is_ignored_witness :
  blank (js "  ") = true
  /\ blank [9; 10]%N = true
  /\ addField (js "  " ++ js "Query.posts" ++ [9; 10]%N) (VArray [str "Post"])
              (VFunction (UserFunction 7)) VUndefined emptyWorld
     = addField (js "Query.posts") (VArray [str "Post"])
                (VFunction (UserFunction 7)) VUndefined emptyWorld.
Proof.
  split; [reflexivity|]. split; [reflexivity|].
  destruct (@surrounding_space_is_ignored exampleDatabase (js "  ") (js "Query.posts")
              [9; 10]%N (VArray [str "Post"]) (VFunction (UserFunction 7)) VUndefined
              VNull emptyWorld eq_refl eq_refl) as [Hfield _].
  exact Hfield.
Defined.

(** ** Requests to the functions of [withBuilder] *)

(** Runs a function of [withBuilder] up to the answers of the driver and of
    the database. *)
Ltac run_request :=
  cbv [addSchemaColumn dropSchemaColumn addSchemaTable dropSchemaTable
       availableTypes db_schema async await bind tryCatch request ret throw get this].

Section Requests.

Context `{Required}.

(** X13. What the schema builders do when the request brings no usable
    context. [addSchemaColumn] and [addSchemaTable] read the column types
    of the driver before their [try]: when the resolver engine holds no
    adapter, as before [connect], their promise is rejected with a
    TypeError and the database is not asked. With no Knex instance in the
    context, all four answer [false], the TypeError being caught, and the
    database is not asked either. *)
Theorem schema_builders_without_context (fn : Closure) (root : Value) (args : Args)
    (ioc : IOC) (w : World) (m : JS (Promise Value)) :
  In fn schemaBuilders ->
  call fn root args ioc = Some m ->
  (checksType fn = true ->
   (forall kind, r_dbDriver (ioc_resolver ioc) <> Some (Adapter kind)) ->
   exists msg, m w = (Normal (Rejected (TypeError msg)), w))
  /\ (ioc_db ioc = None ->
      (checksType fn = true -> typeOffered args ioc = true) ->
      m w = (Normal (Fulfilled (VBool false)), w)).
Proof.
  intros Hin Hcall. simpl in Hin.
  destruct Hin as [<-|[<-|[<-|[<-|[]]]]]; simpl in Hcall; inversion Hcall; subst m;
    clear Hcall; split; try discriminate.
  - intros _ Hnone. run_request.
    destruct (r_dbDriver (ioc_resolver ioc)) as [[kind|]|];
      [now destruct (Hnone kind)|eexists; reflexivity..].
  - intros Hdb Hoffer. specialize (Hoffer eq_refl). unfold typeOffered in Hoffer.
    run_request.
    destruct (r_dbDriver (ioc_resolver ioc)) as [[kind|]|]; try discriminate.
    apply negb_true_iff in Hoffer. now rewrite Hoffer, Hdb.
  - intros Hdb _. run_request. now rewrite Hdb.
  - intros _ Hnone. run_request.
    destruct (r_dbDriver (ioc_resolver ioc)) as [[kind|]|];
      [now destruct (Hnone kind)|eexists; reflexivity..].
  - intros Hdb Hoffer. specialize (Hoffer eq_refl). unfold typeOffered in Hoffer.
    run_request.
    destruct (r_dbDriver (ioc_resolver ioc)) as [[kind|]|]; try discriminate.
    apply negb_true_iff in Hoffer. now rewrite Hoffer, Hdb.
  - intros Hdb _. run_request. now rewrite Hdb.
Qed.

(** X14. A request to a function that [withBuilder] registered never
    changes the facade, always gets a promise and never an exception, and
    asks at most one thing of the database: the request that belongs to the
    function and its arguments. *)
Theorem requests_leave_the_facade_alone (fn : Closure) (root : Value) (args : Args)
    (ioc : IOC) (w : World) (m : JS (Promise Value)) :
  call fn root args ioc = Some m ->
  facade (snd (m w)) = facade w
  /\ (exists p, fst (m w) = Normal p)
  /\ (trace (snd (m w)) = trace w
      \/ exists rq, requestOf fn args = Some rq
                    /\ trace (snd (m w)) = trace w ++ [SchemaRequested rq]).
Proof.
  intros Hcall.
  destruct fn; simpl in Hcall; inversion Hcall; subst m; clear Hcall; run_request.
  - repeat split; [eexists; reflexivity|now left].
  - destruct (r_dbDriver (ioc_resolver ioc)) as [[kind|]|];
      [|repeat split; [eexists; reflexivity|now left]..].
    destruct (notListed (arg args "type") (Adapter_getAvailableTypes kind));
      [repeat split; [eexists; reflexivity|now left]|].
    destruct (ioc_db ioc) as [db|];
      [|repeat split; [eexists; reflexivity|now left]].
    destruct (Knex_schema db _ (trace w));
      (repeat split; [eexists; reflexivity|right; eexists; split; reflexivity]).
  - destruct (ioc_db ioc) as [db|];
      [|repeat split; [eexists; reflexivity|now left]].
    destruct (Knex_schema db _ (trace w));
      (repeat split; [eexists; reflexivity|right; eexists; split; reflexivity]).
  - destruct (r_dbDriver (ioc_resolver ioc)) as [[kind|]|];
      [|repeat split; [eexists; reflexivity|now left]..].
    destruct (notListed (arg args "type") (Adapter_getAvailableTypes kind));
      [repeat split; [eexists; reflexivity|now left]|].
    destruct (ioc_db ioc) as [db|];
      [|repeat split; [eexists; reflexivity|now left]].
    destruct (Knex_schema db _ (trace w));
      (repeat split; [eexists; reflexivity|right; eexists; split; reflexivity]).
  - destruct (ioc_db ioc) as [db|];
      [|repeat split; [eexists; reflexivity|now left]].
    destruct (Knex_schema db _ (trace w));
      (repeat split; [eexists; reflexivity|right; eexists; split; reflexivity]).
Qed.

End Requests.

Lemma schema_builders_without_context_witness :
  In AddSchemaTable schemaBuilders
  /\ call AddSchemaTable VNull postsTable bareIOC
     = Some (addSchemaTable VNull postsTable bareIOC)
  /\ call AddSchemaTable VNull postsTable offlineIOC
     = Some (addSchemaTable VNull postsTable offlineIOC)
  /\ checksType AddSchemaTable = true
  /\ r_dbDriver (ioc_resolver bareIOC) = None
  /\ ioc_db offlineIOC = None
  /\ typeOffered postsTable offlineIOC = true
  /\ (exists msg, addSchemaTable VNull postsTable bareIOC blogWorld
                  = (Normal (Rejected (TypeError msg)), blogWorld))
  /\ addSchemaTable VNull postsTable offlineIOC blogWorld
     = (Normal (Fulfilled (VBool false)), blogWorld).
Proof.
  assert (Hin : In AddSchemaTable schemaBuilders) by (simpl; tauto).
  assert (Hbare : forall kind,
             r_dbDriver (ioc_resolver bareIOC) <> Some (Adapter kind))
    by (intros kind; discriminate).
  destruct (@schema_builders_without_context exampleDatabase AddSchemaTable VNull
              postsTable bareIOC blogWorld _ Hin eq_refl) as [Hrejects _].
  destruct (@schema_builders_without_context exampleDatabase AddSchemaTable VNull
              postsTable offlineIOC blogWorld _ Hin eq_refl) as [_ Hfalse].
  repeat (split; [first [exact Hin | reflexivity]|]).
  split; [exact (Hrejects eq_refl Hbare)|exact (Hfalse eq_refl (fun _ => eq_refl))].
Defined.

Lemma requests_leave_the_facade_alone_witness :
  call DropSchemaTable VNull postsTable exampleIOC
    = Some (dropSchemaTable VNull postsTable exampleIOC)
  /\ facade (snd (dropSchemaTable VNull postsTable exampleIOC loadedWorld))
     = facade loadedWorld
  /\ (exists p, fst (dropSchemaTable VNull postsTable exampleIOC loadedWorld) = Normal p)
  /\ (trace (snd (dropSchemaTable VNull postsTable exampleIOC loadedWorld))
        = trace loadedWorld
      \/ exists rq,
           requestOf DropSchemaTable postsTable = Some rq
           /\ trace (snd (dropSchemaTable VNull postsTable exampleIOC loadedWorld))
              = trace loadedWorld ++ [SchemaRequested rq]).
Proof.
  split; [reflexivity|].
  exact (@requests_leave_the_facade_alone exampleDatabase DropSchemaTable VNull
           postsTable exampleIOC loadedWorld _ eq_refl).
Defined.

(** ** The constructor *)

Section Constructor.

Context `{Required}.

(** X15. The constructor does not reach the database and loads nothing: the
    new facade holds the Knex instance it was given, no driver, no database
    schema and no rendered text, whatever the compiler and the resolver do
    with the name. Without a name, or with an empty one, it completes with a
    fresh compiler and a fresh resolver; with a name, what it does besides
    is [add("Query", "getAPIName", "String", () => name)], whose error, if
    any, is the constructor's. *)
Theorem a_new_facade_holds_nothing (name : Value) (db : option Knex)
    (history : list Event) :
  let fresh := mkWorld (mkDB2Graphql db VNull VNull Compiler_new Resolver_new None)
                       history in
  let w := snd (construct name db history) in
  (trace w = history
   /\ connection (facade w) = db
   /\ dbDriver (facade w) = None
   /\ dbSchema (facade w) = VNull
   /\ gqlSchema (facade w) = VNull)
  /\ (truthy (defaultTo emptyString name) = false ->
      construct name db history = (Normal tt, fresh))
  /\ (truthy (defaultTo emptyString name) = true ->
      w = snd (add (str "Query") (str "getAPIName") (str "String")
                   (VFunction (ApiName (defaultTo emptyString name))) VUndefined fresh)
      /\ forall e,
           fst (add (str "Query") (str "getAPIName") (str "String")
                    (VFunction (ApiName (defaultTo emptyString name))) VUndefined fresh)
             = Throw e ->
           fst (construct name db history) = Throw e).
Proof.
  intros fresh w. subst w. unfold construct. fold fresh.
  destruct (truthy (defaultTo emptyString name)) eqn:Hname.
  - set (named := add (str "Query") (str "getAPIName") (str "String")
                      (VFunction (ApiName (defaultTo emptyString name))) VUndefined).
    assert (Hsame : snd ((named ;;; ret tt) fresh) = snd (named fresh))
      by (cbv [bind ret]; now destruct (named fresh) as [[a|e] w']).
    rewrite Hsame. split; [|split; [discriminate|]].
    + pose proof sameLink_refl as Hlrefl.
      pose proof sameLink_trans as Hltrans.
      pose proof sameTrace_refl as Htrefl.
      pose proof sameTrace_trans as Httrans.
      pose proof sameSchemaText_refl as Hsrefl.
      pose proof sameSchemaText_trans as Hstrans.
      assert (Hlink : sameLink fresh (snd (named fresh)))
        by (apply preserves_add with (R := sameLink) (Q := fun _ _ => True); easy).
      assert (Htrace : sameTrace fresh (snd (named fresh)))
        by (apply preserves_add with (R := sameTrace) (Q := fun _ _ => True); easy).
      assert (Htext : sameSchemaText fresh (snd (named fresh)))
        by (apply preserves_add with (R := sameSchemaText) (Q := fun _ _ => True); easy).
      destruct Hlink as (Hconn & Hschema & Hdriver).
      repeat split; assumption.
    + intros _. split; [reflexivity|].
      intros e He. cbv [bind ret]. destruct (named fresh) as [[a|e'] w'];
        simpl in *; congruence.
  - split; [now repeat split|]. split; [reflexivity|discriminate].
Qed.

End Constructor.

Lemma a_new_facade_holds_nothing_witness :
  truthy (defaultTo emptyString (str "blog")) = true
  /\ trace (snd (@construct exampleDatabase (str "blog") (Some blogKnex) [])) = []
  /\ connection (facade (snd (@construct exampleDatabase (str "blog") (Some blogKnex) [])))
     = Some blogKnex
  /\ dbSchema (facade (snd (@construct exampleDatabase (str "blog") (Some blogKnex) [])))
     = VNull.
Proof.
  split; [reflexivity|].
  destruct (@a_new_facade_holds_nothing exampleDatabase (str "blog") (Some blogKnex) [])
    as [(Hrecord & Hconn & _ & Hschema & _) _].
  repeat split; assumption.
Defined.

(** ** More on the before-hook and on the driver keys *)

Section Edges.

Context `{Required}.

(** X16. Through the facade a rejected callback can be replaced but not
    taken away: once the hook holds a truthy one, it holds a truthy one
    after any sequence of calls, [onBefore] with a falsy second argument
    included, as long as the resolver's own [add] and [getResolvers] leave
    the hook alone. *)
Theorem a_rejected_callback_cannot_be_unset (calls : list Call) (w : World) :
  (forall type field handler r,
      beforeHook (snd (Resolver_add type field handler r)) = beforeHook r) ->
  (forall flag r, beforeHook (snd (Resolver_getResolvers flag r)) = beforeHook r) ->
  truthy (rejected (hookOf w)) = true ->
  truthy (rejected (hookOf (performAll calls w))) = true.
Proof.
  intros Hadd Hget. revert w.
  induction calls as [|c calls IH]; intros w Hset; [exact Hset|].
  simpl. apply IH.
  assert (Hother : (forall v r, c <> DoOnBefore v r) ->
                   truthy (rejected (hookOf (perform c w))) = true).
  { intros Hc. pose proof (@perform_keeps_hook _ c w Hadd Hget Hc) as Hsame.
    unfold sameHook in Hsame. now rewrite Hsame. }
  destruct c as [| | |v r| | | | | |]; try (apply Hother; discriminate).
  simpl. rewrite onBefore_hook. simpl.
  now destruct (truthy r) eqn:Hr.
Qed.


End Edges.

Lemma a_rejected_callback_cannot_be_unset_witness :
  truthy (rejected (hookOf (after (onBefore VNull (VFunction (UserFunction 2)))
                                  emptyWorld))) = true
  /\ truthy (rejected
               (hookOf (performAll [DoOnBefore (VFunction (UserFunction 3)) VNull;
                                    DoWithBuilder;
                                    DoOnBefore VUndefined VUndefined]
                                   (after (onBefore VNull (VFunction (UserFunction 2)))
                                          emptyWorld)))) = true.
Proof.
  split; [reflexivity|].
  apply (@a_rejected_callback_cannot_be_unset exampleDatabase).
  - intros type field handler r. simpl. unfold Spec.resolver_add.
    destruct type; try reflexivity. destruct field; reflexivity.
  - reflexivity.
  - reflexivity.
Defined.

